(** * Dual-mode event buffer of include/gadget/buffer.h

    The header gives eBPF programs two inline functions,
    [gadget_reserve_buf] and [gadget_submit_buf], that hand an event to user
    space through a BPF ring buffer when the running kernel has one and
    through a per-CPU scratch cell plus [bpf_perf_event_output] otherwise.

    The two functions are embedded over an interface of the BPF helpers they
    call ([BpfHelpers]); a reference kernel gives the helpers a meaning. *)

From Stdlib Require Import ZArith Lia Strings.Byte.
From stdpp Require Import base gmap strings list.

Local Open Scope Z_scope.

(** ** Constants and map declarations of the header *)

(** The size of the scratch slot; the header's value unless the program
    defines its own before including it. *)
Definition MAX_EVENT_SIZE : Z := 10240.

(** Declared in [vmlinux.h], with the values of the kernel's UAPI: the low
    32 bits of the flags of [bpf_perf_event_output] select the index into
    the perf event array, and the all-ones index means the CPU the program
    runs on. *)
Definition BPF_F_INDEX_MASK : Z := 0xffffffff.
Definition BPF_F_CURRENT_CPU : Z := BPF_F_INDEX_MASK.

Inductive bpf_map_type :=
  | BPF_MAP_TYPE_RINGBUF
  | BPF_MAP_TYPE_PERCPU_ARRAY
  | BPF_MAP_TYPE_PERF_EVENT_ARRAY.

(** A map declaration of the [.maps] section.  A map is referred to by the
    name of its symbol: [&gadget_heap] is [map_name gadget_heap]. *)
Definition map_ref := string.

Record bpf_map_def := {
  map_name : map_ref;
  map_type : bpf_map_type;
  max_entries : Z;
  key_size : Z;
  value_size : Z;
}.

(** [sizeof(__u32)] *)
Definition sizeof_u32 : Z := 4.

(** The map a tracer declares for its events: a ring buffer of [size]
    bytes.  (The macro also declares an unused marker symbol, which has no
    meaning at run time.) *)
Definition GADGET_TRACER_MAP (name : string) (size : Z) : bpf_map_def :=
  {| map_name := name;
     map_type := BPF_MAP_TYPE_RINGBUF;
     max_entries := size;
     key_size := 0;
     value_size := 0 |}.

Definition gadget_heap : bpf_map_def :=
  {| map_name := "gadget_heap";
     map_type := BPF_MAP_TYPE_PERCPU_ARRAY;
     max_entries := 1;
     key_size := sizeof_u32;
     value_size := MAX_EVENT_SIZE |}.

(** ** Values the functions pass around *)

(** A [void *] of the program.  The BPF verifier tracks where a pointer
    comes from; it is either null, the value of a per-CPU array cell, or the
    data area of a ring buffer record. *)
Inductive ptr :=
  | NULL
  | map_value (m : map_ref) (cpu : nat) (key : Z)
  | ringbuf_mem (m : map_ref) (rec : nat).

Global Instance ptr_eq_dec : EqDecision ptr.
Proof. solve_decision. Defined.

(** The [void *ctx] a program receives from its hook. *)
Definition ctx_ptr := nat.

(** The kernel types whose existence the header asks about. *)
Inductive kernel_type := struct_bpf_ringbuf.

Global Instance kernel_type_eq_dec : EqDecision kernel_type.
Proof. solve_decision. Defined.

(** ** The helpers the header calls

    [K] is the state of the kernel as the program sees it.  A helper takes
    the state and gives its result with the new state.
    [bpf_core_type_exists] is a CO-RE relocation: it reads the type
    information of the running kernel. *)
Class BpfHelpers (K : Type) := {
  bpf_core_type_exists : kernel_type → K → bool;
  bpf_ringbuf_reserve : map_ref → Z → Z → K → ptr * K;
  bpf_ringbuf_submit : ptr → Z → K → K;
  bpf_map_lookup_elem : map_ref → Z → K → ptr * K;
  bpf_perf_event_output : ctx_ptr → map_ref → Z → ptr → Z → K → Z * K;
}.

(** ** The two functions of the header

    A [__u64] size and a [long] status are integers of [Z]; the functions
    do no arithmetic on them, they pass them on. *)

Section Buffer.
Context {K : Type} `{BpfHelpers K}.

Definition gadget_reserve_buf (map : map_ref) (size : Z) (k : K) : ptr * K :=
  let zero := 0 in
  if bpf_core_type_exists struct_bpf_ringbuf k
  then bpf_ringbuf_reserve map size 0 k
  else bpf_map_lookup_elem (map_name gadget_heap) zero k.

Definition gadget_submit_buf (ctx : ctx_ptr) (map : map_ref) (buf : ptr)
    (size : Z) (k : K) : Z * K :=
  if bpf_core_type_exists struct_bpf_ringbuf k
  then (0, bpf_ringbuf_submit buf 0 k)
  else bpf_perf_event_output ctx map BPF_F_CURRENT_CPU buf size k.
End Buffer.

(** ** A reference kernel

    The helpers are kernel code, not code of the header.  The state below
    holds what they act on: the ring buffers, the per-CPU arrays and the perf
    event arrays by map name, the CPU the program runs on, the kernel's type
    information, and a log of the helper calls made so far (oldest first). *)

Inductive helper_call :=
  | call_ringbuf_reserve (map : map_ref) (size flags : Z)
  | call_ringbuf_submit (buf : ptr) (flags : Z)
  | call_map_lookup_elem (map : map_ref) (key : Z)
  | call_perf_event_output (ctx : ctx_ptr) (map : map_ref) (flags : Z)
      (data : ptr) (size : Z) (payload : option (list byte)).

(** A ring buffer: the bytes still free, the records reserved and not yet
    submitted (by record number), the records submitted, oldest first, as
    the consumer reads them, and the bytes that lie in the data area where a
    record will be placed. *)
Record ringbuf := {
  rb_free : Z;
  rb_next : nat;
  rb_pending : gmap nat (list byte);
  rb_queue : list (list byte);
  rb_junk : nat → nat → byte;
}.

(** A per-CPU array: one value per CPU and key. *)
Record percpu_array := {
  pa_max_entries : Z;
  pa_cells : gmap (nat * Z) (list byte);
}.

(** The perf buffer of one CPU: the bytes still free and the samples
    accepted, oldest first. *)
Record perf_buffer := {
  pb_free : Z;
  pb_samples : list (list byte);
}.

Record kernel := {
  k_cpu : nat;
  k_btf : kernel_type → bool;
  k_ringbufs : gmap string ringbuf;
  k_percpu_arrays : gmap string percpu_array;
  k_perf_arrays : gmap string (gmap nat perf_buffer);
  k_trace : list helper_call;
}.

Definition log_call (c : helper_call) (k : kernel) : kernel :=
  {| k_cpu := k_cpu k; k_btf := k_btf k;
     k_ringbufs := k_ringbufs k;
     k_percpu_arrays := k_percpu_arrays k;
     k_perf_arrays := k_perf_arrays k;
     k_trace := k_trace k ++ [c] |}.

Definition set_ringbuf (m : map_ref) (rb : ringbuf) (k : kernel) : kernel :=
  {| k_cpu := k_cpu k; k_btf := k_btf k;
     k_ringbufs := <[m := rb]> (k_ringbufs k);
     k_percpu_arrays := k_percpu_arrays k;
     k_perf_arrays := k_perf_arrays k;
     k_trace := k_trace k |}.

Definition set_percpu_array (m : map_ref) (pa : percpu_array) (k : kernel) : kernel :=
  {| k_cpu := k_cpu k; k_btf := k_btf k;
     k_ringbufs := k_ringbufs k;
     k_percpu_arrays := <[m := pa]> (k_percpu_arrays k);
     k_perf_arrays := k_perf_arrays k;
     k_trace := k_trace k |}.

Definition set_perf_array (m : map_ref) (pe : gmap nat perf_buffer) (k : kernel) : kernel :=
  {| k_cpu := k_cpu k; k_btf := k_btf k;
     k_ringbufs := k_ringbufs k;
     k_percpu_arrays := k_percpu_arrays k;
     k_perf_arrays := <[m := pe]> (k_perf_arrays k);
     k_trace := k_trace k |}.

(** *** Memory behind a pointer *)

(** The region a pointer leads to: the whole cell of a per-CPU array, or the
    whole record of a ring buffer reservation. *)
Definition region (p : ptr) (k : kernel) : option (list byte) :=
  match p with
  | NULL => None
  | map_value m cpu key => pa ← k_percpu_arrays k !! m; pa_cells pa !! (cpu, key)
  | ringbuf_mem m rec => rb ← k_ringbufs k !! m; rb_pending rb !! rec
  end.

(** Reading [n] bytes at a pointer; the verifier refuses a program that
    reads past the region. *)
Definition load_bytes (p : ptr) (n : Z) (k : kernel) : option (list byte) :=
  cell ← region p k;
  if bool_decide (0 ≤ n ≤ Z.of_nat (length cell))
  then Some (take (Z.to_nat n) cell) else None.

(** A region after [data] was written at its start. *)
Definition overwrite (data cell : list byte) : list byte :=
  data ++ drop (length data) cell.

(** The program writes [data] at the start of the region; a write that does
    not fit is refused by the verifier and never runs. *)
Definition store_bytes (p : ptr) (data : list byte) (k : kernel) : kernel :=
  match p with
  | NULL => k
  | map_value m cpu key =>
      match k_percpu_arrays k !! m with
      | Some pa =>
          match pa_cells pa !! (cpu, key) with
          | Some cell =>
              if bool_decide (length data ≤ length cell)%nat
              then set_percpu_array m
                     {| pa_max_entries := pa_max_entries pa;
                        pa_cells := <[(cpu, key) := overwrite data cell]> (pa_cells pa) |} k
              else k
          | None => k
          end
      | None => k
      end
  | ringbuf_mem m rec =>
      match k_ringbufs k !! m with
      | Some rb =>
          match rb_pending rb !! rec with
          | Some cell =>
              if bool_decide (length data ≤ length cell)%nat
              then set_ringbuf m
                     {| rb_free := rb_free rb; rb_next := rb_next rb;
                        rb_pending := <[rec := overwrite data cell]> (rb_pending rb);
                        rb_queue := rb_queue rb; rb_junk := rb_junk rb |} k
              else k
          | None => k
          end
      | None => k
      end
  end.

(** *** The helpers *)

Definition ENOENT : Z := 2.
Definition EFAULT : Z := 14.
Definition EINVAL : Z := 22.
Definition ENOSPC : Z := 28.

(** Modelled from the spec: the capability flag, which the header reads with
    [bpf_core_type_exists]; its probe is code of the loader.  The flag tells
    whether the queue-like transport is present in the runtime
    environment: here, whether the kernel's type information has the type. *)
Definition kernel_core_type_exists (t : kernel_type) (k : kernel) : bool :=
  k_btf k t.

(** The contents of a record as the reservation finds them: whatever lies
    in the data area, nothing is cleared. *)
Definition fresh_record (rb : ringbuf) (size : Z) : list byte :=
  rb_junk rb (rb_next rb) <$> seq 0 (Z.to_nat size).

(** Modelled from the spec: the queue channel's reservation, the kernel's
    [bpf_ringbuf_reserve].  A reservation yields a freshly allocated record
    buffer of the exact requested size, contents unspecified (not
    zero-initialized); when the channel has no capacity available it fails
    and returns no handle.  A [size] is a [__u64], so never negative. *)
Definition kernel_ringbuf_reserve (map : map_ref) (size flags : Z) (k : kernel)
    : ptr * kernel :=
  let k := log_call (call_ringbuf_reserve map size flags) k in
  match k_ringbufs k !! map with
  | Some rb =>
      if bool_decide (flags = 0 ∧ 0 ≤ size ≤ rb_free rb)
      then (ringbuf_mem map (rb_next rb),
            set_ringbuf map
              {| rb_free := rb_free rb - size;
                 rb_next := S (rb_next rb);
                 rb_pending := <[rb_next rb := fresh_record rb size]> (rb_pending rb);
                 rb_queue := rb_queue rb;
                 rb_junk := rb_junk rb |} k)
      else (NULL, k)
  | None => (NULL, k)
  end.

(** Modelled from the spec: the queue channel's submission, the kernel's
    [bpf_ringbuf_submit].  Submission enqueues that exact record; records
    reach the consumer in FIFO order.  A pointer that is no reserved record
    is refused by the verifier; here it enqueues nothing. *)
Definition kernel_ringbuf_submit (buf : ptr) (flags : Z) (k : kernel) : kernel :=
  let k := log_call (call_ringbuf_submit buf flags) k in
  match buf with
  | ringbuf_mem m rec =>
      match k_ringbufs k !! m with
      | Some rb =>
          match rb_pending rb !! rec with
          | Some data =>
              set_ringbuf m
                {| rb_free := rb_free rb;
                   rb_next := rb_next rb;
                   rb_pending := delete rec (rb_pending rb);
                   rb_queue := rb_queue rb ++ [data];
                   rb_junk := rb_junk rb |} k
          | None => k
          end
      | None => k
      end
  | _ => k
  end.

(** Modelled from the spec: the lookup of the scratch slot, the kernel's
    [bpf_map_lookup_elem] on a per-CPU array.  The slot is a per-execution-unit
    cell reused across calls, nothing is allocated; the lookup fails only if
    the table has no such cell. *)
Definition kernel_map_lookup_elem (map : map_ref) (key : Z) (k : kernel)
    : ptr * kernel :=
  let k := log_call (call_map_lookup_elem map key) k in
  match k_percpu_arrays k !! map with
  | Some pa =>
      if bool_decide (0 ≤ key < pa_max_entries pa)
      then match pa_cells pa !! (k_cpu k, key) with
           | Some _ => (map_value map (k_cpu k) key, k)
           | None => (NULL, k)
           end
      else (NULL, k)
  | None => (NULL, k)
  end.

(** The CPU whose buffer the flags of [bpf_perf_event_output] select. *)
Definition perf_index (flags : Z) (k : kernel) : nat :=
  let index := Z.land flags BPF_F_INDEX_MASK in
  if bool_decide (index = BPF_F_CURRENT_CPU) then k_cpu k else Z.to_nat index.

(** Modelled from the spec: the secondary delivery mechanism, the kernel's
    [bpf_perf_event_output].  It is called with (context, channel reference,
    data pointer, length), copies that many bytes from the pointer and
    reports a status: non-negative = accepted, negative = rejected/dropped.
    The call is logged with the bytes it was handed. *)
Definition kernel_perf_event_output (ctx : ctx_ptr) (map : map_ref) (flags : Z)
    (data : ptr) (size : Z) (k : kernel) : Z * kernel :=
  let payload := load_bytes data size k in
  let k := log_call (call_perf_event_output ctx map flags data size payload) k in
  if bool_decide (Z.land flags BPF_F_INDEX_MASK = flags) then
    match payload with
    | Some bytes =>
        match k_perf_arrays k !! map with
        | Some pe =>
            match pe !! perf_index flags k with
            | Some pb =>
                if bool_decide (size ≤ pb_free pb)
                then (0, set_perf_array map
                           (<[perf_index flags k :=
                                {| pb_free := pb_free pb - size;
                                   pb_samples := pb_samples pb ++ [bytes] |}]> pe) k)
                else (- ENOSPC, k)
            | None => (- ENOENT, k)
            end
        | None => (- EINVAL, k)
        end
    | None => (- EFAULT, k)
    end
  else (- EINVAL, k).

Global Instance kernel_helpers : BpfHelpers kernel := {|
  bpf_core_type_exists := kernel_core_type_exists;
  bpf_ringbuf_reserve := kernel_ringbuf_reserve;
  bpf_ringbuf_submit := kernel_ringbuf_submit;
  bpf_map_lookup_elem := kernel_map_lookup_elem;
  bpf_perf_event_output := kernel_perf_event_output;
|}.

(** *** What the claims observe *)

Inductive transport := Queue | Slot.

Global Instance transport_eq_dec : EqDecision transport.
Proof. solve_decision. Defined.

(** The transport a helper call belongs to. *)
Definition call_transport (c : helper_call) : transport :=
  match c with
  | call_ringbuf_reserve _ _ _ | call_ringbuf_submit _ _ => Queue
  | call_map_lookup_elem _ _ | call_perf_event_output _ _ _ _ _ _ => Slot
  end.

(** The transport the capability flag selects. *)
Definition selected (k : kernel) : transport :=
  if bpf_core_type_exists struct_bpf_ringbuf k then Queue else Slot.

(** The records of a ring buffer as its consumer reads them. *)
Definition consumer_view (map : map_ref) (k : kernel) : list (list byte) :=
  match k_ringbufs k !! map with
  | Some rb => rb_queue rb
  | None => []
  end.

(** The samples the perf buffer of a CPU has accepted. *)
Definition perf_samples (map : map_ref) (cpu : nat) (k : kernel) : list (list byte) :=
  match k_perf_arrays k !! map with
  | Some pe => match pe !! cpu with
               | Some pb => pb_samples pb
               | None => []
               end
  | None => []
  end.

(** The slot table is initialized: [gadget_heap] exists as declared, with a
    cell of [value_size] bytes at index 0 for the running CPU. *)
Definition slot_table_initialized (k : kernel) : Prop :=
  ∃ pa cell,
    k_percpu_arrays k !! map_name gadget_heap = Some pa
    ∧ pa_max_entries pa = max_entries gadget_heap
    ∧ pa_cells pa !! (k_cpu k, 0) = Some cell
    ∧ Z.of_nat (length cell) = value_size gadget_heap.

(** The scratch slot of the running CPU. *)
Definition slot (k : kernel) : ptr := map_value (map_name gadget_heap) (k_cpu k) 0.

(** ** Programs that call the header *)

(** The calling pattern of an event: reserve room for the bytes, give up
    when there is none, else write them and submit.  The result is the
    status of the submission, if one was made. *)
Definition emit (ctx : ctx_ptr) (map : map_ref) (data : list byte) (k : kernel)
    : option Z * kernel :=
  let size := Z.of_nat (length data) in
  let '(buf, k1) := gadget_reserve_buf map size k in
  if decide (buf = NULL) then (None, k1)
  else
    let k2 := store_bytes buf data k1 in
    let '(ret, k3) := gadget_submit_buf ctx map buf size k2 in
    (Some ret, k3).

(** Events emitted one after the other by one execution unit; the result
    lists the events that were submitted. *)
Fixpoint emit_all (ctx : ctx_ptr) (map : map_ref) (events : list (list byte))
    (k : kernel) : list (list byte) * kernel :=
  match events with
  | [] => ([], k)
  | data :: rest =>
      let '(r, k1) := emit ctx map data k in
      let '(sent, k2) := emit_all ctx map rest k1 in
      (match r with Some _ => data :: sent | None => sent end, k2)
  end.

(** One step of an execution: the program calls one of the two functions,
    with any arguments, or writes through a pointer. *)
Inductive kstep : kernel → kernel → Prop :=
  | step_reserve map size k :
      kstep k (gadget_reserve_buf map size k).2
  | step_write p data k :
      kstep k (store_bytes p data k)
  | step_submit ctx map buf size k :
      kstep k (gadget_submit_buf ctx map buf size k).2.

(** ** Kernels to run the functions on *)

Definition zeroes (n : Z) : list byte := replicate (Z.to_nat n) x00.

(** A per-CPU array as the kernel creates it from its declaration: one
    zeroed value per CPU and key. *)
Definition percpu_array_create (d : bpf_map_def) (ncpus : nat) : percpu_array :=
  {| pa_max_entries := max_entries d;
     pa_cells :=
       list_to_map
         ((λ ck : nat * nat, ((ck.1, Z.of_nat ck.2), zeroes (value_size d)))
            <$> list_prod (seq 0 ncpus) (seq 0 (Z.to_nat (max_entries d)))) |}.

(** A kernel without ring buffers, two CPUs, the program on CPU 1, with the
    tracer map "events" set up as a perf event array of 4096 bytes a CPU. *)
Definition slot_kernel : kernel :=
  {| k_cpu := 1;
     k_btf := λ _, false;
     k_ringbufs := ∅;
     k_percpu_arrays := {[ map_name gadget_heap := percpu_array_create gadget_heap 2 ]};
     k_perf_arrays :=
       {[ "events" :=
            list_to_map [(0%nat, {| pb_free := 4096; pb_samples := [] |});
                         (1%nat, {| pb_free := 4096; pb_samples := [] |})] ]};
     k_trace := [] |}.

(** A kernel with ring buffers and the tracer map "events" of [capacity]
    bytes, whose data area holds the byte [stale] everywhere. *)
Definition queue_kernel (capacity : Z) (stale : byte) : kernel :=
  {| k_cpu := 0;
     k_btf := λ _, true;
     k_ringbufs :=
       {[ map_name (GADGET_TRACER_MAP "events" capacity) :=
            {| rb_free := max_entries (GADGET_TRACER_MAP "events" capacity);
               rb_next := 0;
               rb_pending := ∅;
               rb_queue := [];
               rb_junk := λ _ _, stale |} ]};
     k_percpu_arrays := {[ map_name gadget_heap := percpu_array_create gadget_heap 1 ]};
     k_perf_arrays := ∅;
     k_trace := [] |}.

(** A kernel whose ring buffer "events" holds [bytes] where the next record
    will be placed. *)
Definition stale_kernel (bytes : list byte) : kernel :=
  {| k_cpu := 0;
     k_btf := λ _, true;
     k_ringbufs :=
       {[ "events" :=
            {| rb_free := Z.of_nat (length bytes);
               rb_next := 0;
               rb_pending := ∅;
               rb_queue := [];
               rb_junk := λ _ i, nth i bytes x00 |} ]};
     k_percpu_arrays := ∅;
     k_perf_arrays := ∅;
     k_trace := [] |}.

(** The pointer a lookup of the scratch slot gives in a state. *)
Definition slot_lookup (k : kernel) : ptr :=
  (bpf_map_lookup_elem (map_name gadget_heap) 0 k).1.

(** The bytes a ring buffer has free, and the bytes a list of events takes. *)
Definition ring_free (map : map_ref) (k : kernel) : option Z :=
  rb_free <$> k_ringbufs k !! map.

Definition total_size (events : list (list byte)) : Z :=
  foldr (λ data acc, Z.of_nat (length data) + acc) 0 events.

(** Events emitted one after the other; the result lists the events whose
    submission reported a status that is not negative. *)
Fixpoint emit_accepted (ctx : ctx_ptr) (map : map_ref) (events : list (list byte))
    (k : kernel) : list (list byte) * kernel :=
  match events with
  | [] => ([], k)
  | data :: rest =>
      let '(r, k1) := emit ctx map data k in
      let '(accepted, k2) := emit_accepted ctx map rest k1 in
      (match r with
       | Some ret => if bool_decide (0 ≤ ret) then data :: accepted else accepted
       | None => accepted
       end, k2)
  end.

(** A kernel without ring buffers on which [gadget_heap] was never
    created. *)
Definition unconfigured_kernel : kernel :=
  {| k_cpu := 0;
     k_btf := λ _, false;
     k_ringbufs := ∅;
     k_percpu_arrays := ∅;
     k_perf_arrays :=
       {[ "events" := list_to_map [(0%nat, {| pb_free := 4096; pb_samples := [] |})] ]};
     k_trace := [] |}.

(** ** Proof steps that recur *)

(** Case analysis on every test a helper makes. *)
Ltac crush_model :=
  repeat (simpl in *; first [ case_match | case_bool_decide | case_decide ]);
  simplify_eq/=; try done.

(** A status that is an error number is negative. *)
Ltac status_lia := intros; unfold ENOENT, EFAULT, EINVAL, ENOSPC in *; simpl in *; lia.

(** * Properties *)

(** ** The reference kernel *)

Section KernelFacts.
Implicit Types (k : kernel) (m map : map_ref) (p buf : ptr).

Lemma region_log_call c p k : region p (log_call c k) = region p k.
Proof. by destruct p. Qed.

Lemma load_bytes_log_call c p n k : load_bytes p n (log_call c k) = load_bytes p n k.
Proof. unfold load_bytes. by rewrite region_log_call. Qed.

Lemma take_overwrite (data cell : list byte) :
  take (length data) (overwrite data cell) = data.
Proof. unfold overwrite. by rewrite take_app_length. Qed.

Lemma length_overwrite (data cell : list byte) :
  (length data ≤ length cell)%nat → length (overwrite data cell) = length cell.
Proof. intros Hle. unfold overwrite. rewrite length_app, length_drop. lia. Qed.

Lemma length_fresh_record rb size :
  0 ≤ size → Z.of_nat (length (fresh_record rb size)) = size.
Proof.
  intros Hsize. unfold fresh_record.
  rewrite length_fmap, length_seq. lia.
Qed.

Lemma perf_index_current_cpu k : perf_index BPF_F_CURRENT_CPU k = k_cpu k.
Proof. reflexivity. Qed.
End KernelFacts.

Section Frames.
Implicit Types (k : kernel) (m map : map_ref) (p buf : ptr).

(** What a write leaves alone. *)
Lemma store_bytes_frame p data k :
  k_cpu (store_bytes p data k) = k_cpu k
  ∧ k_btf (store_bytes p data k) = k_btf k
  ∧ k_perf_arrays (store_bytes p data k) = k_perf_arrays k
  ∧ k_trace (store_bytes p data k) = k_trace k.
Proof. unfold store_bytes. crush_model. Qed.

Lemma store_bytes_consumer_view p data map k :
  consumer_view map (store_bytes p data k) = consumer_view map k.
Proof.
  unfold store_bytes, consumer_view.
  destruct p as [|m' cpu key|m' rec]; [done| |].
  - crush_model.
  - destruct (k_ringbufs k !! m') as [rb|] eqn:Hrb; [|done].
    destruct (rb_pending rb !! rec); [|done].
    case_bool_decide; [|done]. simpl.
    destruct (decide (m' = map)) as [->|Hne].
    + by rewrite lookup_insert_eq, Hrb.
    + by rewrite lookup_insert_ne.
Qed.

(** Reading back what was written. *)
Lemma load_store_bytes p data cell k :
  region p k = Some cell →
  (length data ≤ length cell)%nat →
  region p (store_bytes p data k) = Some (overwrite data cell)
  ∧ load_bytes p (Z.of_nat (length data)) (store_bytes p data k) = Some data.
Proof.
  intros Hreg Hle.
  assert (region p (store_bytes p data k) = Some (overwrite data cell)) as Hnew.
  { destruct p as [|m cpu key|m rec]; simpl in *; [done| |].
    - destruct (k_percpu_arrays k !! m) as [pa|] eqn:Hpa; [|done]. simpl in Hreg.
      rewrite Hreg, bool_decide_eq_true_2 by done. simpl.
      rewrite lookup_insert_eq. simpl. by rewrite lookup_insert_eq.
    - destruct (k_ringbufs k !! m) as [rb|] eqn:Hrb; [|done]. simpl in Hreg.
      rewrite Hreg, bool_decide_eq_true_2 by done. simpl.
      rewrite lookup_insert_eq. simpl. by rewrite lookup_insert_eq. }
  split; [done|].
  unfold load_bytes. rewrite Hnew. simpl.
  rewrite bool_decide_eq_true_2.
  - by rewrite Nat2Z.id, take_overwrite.
  - rewrite length_overwrite by done. lia.
Qed.

(** The log of a call to the output helper, and what the call does to
    the perf buffers. *)
Lemma perf_event_output_trace ctx map flags data size k :
  k_trace (kernel_perf_event_output ctx map flags data size k).2
  = k_trace k ++ [call_perf_event_output ctx map flags data size (load_bytes data size k)].
Proof. unfold kernel_perf_event_output. crush_model. Qed.

Lemma perf_event_output_accepted ctx map data size k :
  0 ≤ (kernel_perf_event_output ctx map BPF_F_CURRENT_CPU data size k).1 →
  ∃ bytes, load_bytes data size k = Some bytes
    ∧ perf_samples map (k_cpu k)
        (kernel_perf_event_output ctx map BPF_F_CURRENT_CPU data size k).2
      = perf_samples map (k_cpu k) k ++ [bytes].
Proof.
  unfold kernel_perf_event_output, perf_samples.
  rewrite bool_decide_eq_true_2, perf_index_current_cpu by done.
  cbn [log_call k_perf_arrays k_cpu].
  destruct (load_bytes data size k) as [bytes|]; [|status_lia].
  destruct (k_perf_arrays k !! map) as [pe|]; [|status_lia].
  destruct (pe !! k_cpu k) as [pb|]; [|status_lia].
  case_bool_decide; [|status_lia].
  intros _. exists bytes. split; [done|].
  cbn [snd set_perf_array k_perf_arrays].
  by rewrite !lookup_insert_eq.
Qed.

Lemma perf_event_output_rejected ctx map flags data size k :
  (kernel_perf_event_output ctx map flags data size k).1 < 0 →
  (kernel_perf_event_output ctx map flags data size k).2
  = log_call (call_perf_event_output ctx map flags data size (load_bytes data size k)) k.
Proof. unfold kernel_perf_event_output. crush_model; status_lia. Qed.

(** The lookup of the scratch slot. *)
Lemma lookup_slot_initialized k :
  slot_table_initialized k →
  kernel_map_lookup_elem (map_name gadget_heap) 0 k
  = (slot k, log_call (call_map_lookup_elem (map_name gadget_heap) 0) k).
Proof.
  intros (pa & cell & Hpa & Hmax & Hcell & _).
  unfold kernel_map_lookup_elem. simpl in *.
  rewrite Hpa, Hmax, Hcell. by rewrite bool_decide_eq_true_2.
Qed.

Lemma region_slot_initialized k :
  slot_table_initialized k →
  ∃ cell, region (slot k) k = Some cell ∧ Z.of_nat (length cell) = MAX_EVENT_SIZE.
Proof.
  intros (pa & cell & Hpa & _ & Hcell & Hlen).
  exists cell. split; [|done]. simpl in *. by rewrite Hpa.
Qed.
End Frames.

(** ** The two functions on the reference kernel *)

Section Modes.
Implicit Types (k : kernel) (m map : map_ref) (p buf : ptr).

Lemma reserve_queue_mode map size k :
  bpf_core_type_exists struct_bpf_ringbuf k = true →
  gadget_reserve_buf map size k = kernel_ringbuf_reserve map size 0 k.
Proof. intros Hflag. unfold gadget_reserve_buf. by rewrite Hflag. Qed.

Lemma reserve_slot_mode map size k :
  bpf_core_type_exists struct_bpf_ringbuf k = false →
  gadget_reserve_buf map size k = kernel_map_lookup_elem (map_name gadget_heap) 0 k.
Proof. intros Hflag. unfold gadget_reserve_buf. by rewrite Hflag. Qed.

Lemma submit_queue_mode ctx map buf size k :
  bpf_core_type_exists struct_bpf_ringbuf k = true →
  gadget_submit_buf ctx map buf size k = (0, kernel_ringbuf_submit buf 0 k).
Proof. intros Hflag. unfold gadget_submit_buf. by rewrite Hflag. Qed.

Lemma submit_slot_mode ctx map buf size k :
  bpf_core_type_exists struct_bpf_ringbuf k = false →
  gadget_submit_buf ctx map buf size k
  = kernel_perf_event_output ctx map BPF_F_CURRENT_CPU buf size k.
Proof. intros Hflag. unfold gadget_submit_buf. by rewrite Hflag. Qed.

Lemma slot_kernel_initialized : slot_table_initialized slot_kernel.
Proof.
  exists (percpu_array_create gadget_heap 2), (zeroes MAX_EVENT_SIZE).
  repeat split; vm_compute; reflexivity.
Qed.
End Modes.

(** C1: in slot mode, for a size up to [MAX_EVENT_SIZE], reserving, writing
    [size] bytes into the returned region and submitting it with [size]
    hands exactly those bytes to [bpf_perf_event_output], called for the
    caller's context and map on the current CPU; when the helper accepts
    them they are the sample appended to that CPU's buffer, and when it
    rejects them nothing is appended. *)
Theorem slot_reserve_write_submit_delivers
    (k : kernel) (ctx : ctx_ptr) (map : map_ref) (data : list byte) (size : Z) :
  bpf_core_type_exists struct_bpf_ringbuf k = false →
  slot_table_initialized k →
  size = Z.of_nat (length data) →
  size ≤ MAX_EVENT_SIZE →
  let r := gadget_reserve_buf map size k in
  let s := gadget_submit_buf ctx map r.1 size (store_bytes r.1 data r.2) in
  r.1 = slot k
  ∧ k_trace s.2
    = k_trace k ++ [call_map_lookup_elem (map_name gadget_heap) 0;
                    call_perf_event_output ctx map BPF_F_CURRENT_CPU (slot k) size (Some data)]
  ∧ (0 ≤ s.1 → perf_samples map (k_cpu k) s.2 = perf_samples map (k_cpu k) k ++ [data])
  ∧ (s.1 < 0 → perf_samples map (k_cpu k) s.2 = perf_samples map (k_cpu k) k).
Proof.
  intros Hflag Hinit -> Hsize r s. subst r s.
  rewrite reserve_slot_mode, lookup_slot_initialized by done.
  cbn [fst snd].
  destruct (region_slot_initialized k Hinit) as (cell & Hcell & Hlen).
  set (k1 := log_call _ k).
  assert (region (slot k) k1 = Some cell) as Hcell1
    by (subst k1; by rewrite region_log_call).
  assert (length data ≤ length cell)%nat as Hfit by lia.
  destruct (load_store_bytes (slot k) data cell k1 Hcell1 Hfit) as [_ Hload].
  set (k2 := store_bytes (slot k) data k1) in *.
  destruct (store_bytes_frame (slot k) data k1) as (Hcpu & Hbtf & Hperf & Htrace).
  fold k2 in Hcpu, Hbtf, Hperf, Htrace.
  assert (bpf_core_type_exists struct_bpf_ringbuf k2 = false) as Hflag2.
  { simpl. unfold kernel_core_type_exists. by rewrite Hbtf. }
  rewrite submit_slot_mode by done.
  assert (∀ cpu, perf_samples map cpu k2 = perf_samples map cpu k) as Hsame.
  { intros cpu. unfold perf_samples. by rewrite Hperf. }
  split; [done|]. split; [|split].
  - rewrite perf_event_output_trace, Hload, Htrace. subst k1. simpl.
    by rewrite <- app_assoc.
  - intros Hok.
    destruct (perf_event_output_accepted ctx map (slot k) _ k2 Hok)
      as (bytes & Hbytes & Hsamples).
    rewrite Hcpu in Hsamples. simpl in Hsamples.
    rewrite Hsamples, Hsame. congruence.
  - intros Hneg. rewrite perf_event_output_rejected by done.
    by rewrite <- Hsame.
Qed.

Lemma slot_reserve_write_submit_delivers_witness :
  let r := gadget_reserve_buf "events" 64 slot_kernel in
  let s := gadget_submit_buf 7%nat "events" r.1 64
             (store_bytes r.1 (replicate 64 xab) r.2) in
  r.1 = slot slot_kernel
  ∧ k_trace s.2
    = k_trace slot_kernel
      ++ [call_map_lookup_elem (map_name gadget_heap) 0;
          call_perf_event_output 7%nat "events" BPF_F_CURRENT_CPU (slot slot_kernel) 64
            (Some (replicate 64 xab))]
  ∧ (0 ≤ s.1 → perf_samples "events" (k_cpu slot_kernel) s.2
               = perf_samples "events" (k_cpu slot_kernel) slot_kernel ++ [replicate 64 xab])
  ∧ (s.1 < 0 → perf_samples "events" (k_cpu slot_kernel) s.2
               = perf_samples "events" (k_cpu slot_kernel) slot_kernel).
Proof.
  apply (slot_reserve_write_submit_delivers slot_kernel 7%nat "events" (replicate 64 xab) 64).
  - reflexivity.
  - exact slot_kernel_initialized.
  - reflexivity.
  - vm_compute. discriminate.
Defined.

Section Ringbuf.
Implicit Types (k : kernel) (m map : map_ref) (p buf : ptr).

(** A reservation that yields a record. *)
Lemma ringbuf_reserve_success map size flags k :
  (kernel_ringbuf_reserve map size flags k).1 ≠ NULL →
  ∃ rb, k_ringbufs k !! map = Some rb
    ∧ flags = 0 ∧ 0 ≤ size ≤ rb_free rb
    ∧ (kernel_ringbuf_reserve map size flags k).1 = ringbuf_mem map (rb_next rb)
    ∧ region (ringbuf_mem map (rb_next rb)) (kernel_ringbuf_reserve map size flags k).2
      = Some (fresh_record rb size).
Proof.
  unfold kernel_ringbuf_reserve. cbn [log_call k_ringbufs].
  destruct (k_ringbufs k !! map) as [rb|] eqn:Hrb; [|done].
  case_bool_decide as Hok; [|done]. intros _.
  exists rb. destruct Hok as [-> Hsize].
  repeat split; try done; try lia.
  cbn [snd region set_ringbuf k_ringbufs].
  rewrite lookup_insert_eq. simpl. by rewrite lookup_insert_eq.
Qed.

(** A reservation that yields none changes the log only. *)
Lemma ringbuf_reserve_failure map size flags k :
  (kernel_ringbuf_reserve map size flags k).1 = NULL →
  (kernel_ringbuf_reserve map size flags k).2
  = log_call (call_ringbuf_reserve map size flags) k.
Proof. unfold kernel_ringbuf_reserve. crush_model. Qed.

Lemma ringbuf_reserve_trace map size flags k :
  k_trace (kernel_ringbuf_reserve map size flags k).2
  = k_trace k ++ [call_ringbuf_reserve map size flags].
Proof. unfold kernel_ringbuf_reserve. crush_model. Qed.

(** Submitting a reserved record moves it to the end of the queue. *)
Lemma ringbuf_submit_pending m rec cell flags k :
  region (ringbuf_mem m rec) k = Some cell →
  consumer_view m (kernel_ringbuf_submit (ringbuf_mem m rec) flags k)
  = consumer_view m k ++ [cell]
  ∧ region (ringbuf_mem m rec) (kernel_ringbuf_submit (ringbuf_mem m rec) flags k) = None.
Proof.
  unfold kernel_ringbuf_submit, consumer_view. cbn [region log_call k_ringbufs].
  destruct (k_ringbufs k !! m) as [rb|] eqn:Hrb; [|done]. simpl.
  intros ->. cbn [set_ringbuf k_ringbufs].
  rewrite lookup_insert_eq. simpl. by rewrite lookup_delete_eq.
Qed.

Lemma ringbuf_submit_frame buf flags k :
  k_cpu (kernel_ringbuf_submit buf flags k) = k_cpu k
  ∧ k_btf (kernel_ringbuf_submit buf flags k) = k_btf k
  ∧ k_percpu_arrays (kernel_ringbuf_submit buf flags k) = k_percpu_arrays k
  ∧ k_perf_arrays (kernel_ringbuf_submit buf flags k) = k_perf_arrays k
  ∧ k_trace (kernel_ringbuf_submit buf flags k) = k_trace k ++ [call_ringbuf_submit buf flags].
Proof. unfold kernel_ringbuf_submit. crush_model. Qed.

(** The bytes lying in the data area of [stale_kernel]. *)
Lemma fmap_nth_seq (pre bytes : list byte) :
  (λ i, nth i (pre ++ bytes) x00) <$> seq (length pre) (length bytes) = bytes.
Proof.
  revert pre. induction bytes as [|b bytes IH]; intros pre; [done|].
  simpl. f_equal.
  - by rewrite nth_middle.
  - specialize (IH (pre ++ [b])).
    rewrite <- app_assoc, length_app in IH. simpl in IH.
    by rewrite Nat.add_1_r in IH.
Qed.

Lemma stale_kernel_reserve (bytes : list byte) :
  let r := gadget_reserve_buf "events" (Z.of_nat (length bytes)) (stale_kernel bytes) in
  r.1 ≠ NULL ∧ region r.1 r.2 = Some bytes.
Proof.
  unfold gadget_reserve_buf. simpl bpf_core_type_exists. cbv iota.
  unfold bpf_ringbuf_reserve, kernel_helpers, kernel_ringbuf_reserve.
  cbn [log_call k_ringbufs stale_kernel].
  rewrite lookup_singleton_eq. cbn [rb_free].
  rewrite bool_decide_eq_true_2 by lia.
  cbn [fst snd region set_ringbuf k_ringbufs rb_next].
  split; [done|].
  rewrite lookup_insert_eq. simpl. rewrite lookup_insert_eq.
  unfold fresh_record. simpl. rewrite Nat2Z.id.
  f_equal. apply (fmap_nth_seq []).
Qed.
End Ringbuf.

(** C2: in queue mode, for every size, reserve asks the ring buffer of the
    caller's map for a record of exactly [size] bytes (one call of
    [bpf_ringbuf_reserve] with that map, that size and flags 0, its result
    returned as it is); when the result is not null it leads to a region of
    [size] bytes that the caller can write and read back, and that holds
    whatever lay in the ring's data area: nothing clears it, and any bytes
    at all can be what the caller finds there. *)
Theorem queue_reserve_exact_size (k : kernel) (map : map_ref) (size : Z) :
  bpf_core_type_exists struct_bpf_ringbuf k = true →
  let r := gadget_reserve_buf map size k in
  r = bpf_ringbuf_reserve map size 0 k
  ∧ k_trace r.2 = k_trace k ++ [call_ringbuf_reserve map size 0]
  ∧ (r.1 ≠ NULL →
     ∃ rb cell,
       k_ringbufs k !! map = Some rb
       ∧ region r.1 r.2 = Some cell
       ∧ cell = fresh_record rb size
       ∧ Z.of_nat (length cell) = size
       ∧ ∀ data : list byte,
           (length data ≤ length cell)%nat →
           load_bytes r.1 (Z.of_nat (length data)) (store_bytes r.1 data r.2) = Some data)
  ∧ (∀ bytes : list byte,
       let r' := gadget_reserve_buf "events" (Z.of_nat (length bytes)) (stale_kernel bytes) in
       r'.1 ≠ NULL ∧ region r'.1 r'.2 = Some bytes).
Proof.
  intros Hflag r. subst r. rewrite reserve_queue_mode by done.
  split; [done|]. split; [apply ringbuf_reserve_trace|]. split.
  - intros Hok.
    destruct (ringbuf_reserve_success _ _ _ _ Hok) as (rb & Hrb & _ & Hsize & Hptr & Hreg).
    exists rb, (fresh_record rb size). rewrite Hptr.
    repeat split; try done.
    + apply length_fresh_record. lia.
    + intros data Hfit. by eapply load_store_bytes.
  - apply stale_kernel_reserve.
Qed.

Lemma queue_reserve_exact_size_witness :
  let r := gadget_reserve_buf "events" 100 (queue_kernel 4096 xab) in
  r.1 = ringbuf_mem "events" 0
  ∧ region r.1 r.2 = Some (replicate 100 xab)
  ∧ k_trace r.2 = [call_ringbuf_reserve "events" 100 0].
Proof.
  pose proof (queue_reserve_exact_size (queue_kernel 4096 xab) "events" 100 eq_refl)
    as (_ & Htrace & Hregion & _).
  split; [reflexivity|]. split; [|exact Htrace].
  destruct Hregion as (rb & cell & Hrb & Hcell & -> & _); [by vm_compute|].
  rewrite Hcell. vm_compute in Hrb. by simplify_eq.
Defined.

(** C4: in queue mode submit returns 0 for every input, whatever the
    helpers do, and touches no perf buffer; for a handle that reserve gave
    out in queue mode, submitting it in any later state in which its record
    is still reserved makes one call of [bpf_ringbuf_submit], appends
    exactly that record to what the consumer of the ring reads, and
    consumes the handle. *)
Theorem queue_submit_publishes (k : kernel) (map : map_ref) (size : Z) :
  bpf_core_type_exists struct_bpf_ringbuf k = true →
  let r := gadget_reserve_buf map size k in
  r.1 ≠ NULL →
  (∃ rec cell, r.1 = ringbuf_mem map rec ∧ region r.1 r.2 = Some cell)
  ∧ (∀ (k' : kernel) (cell : list byte) (ctx : ctx_ptr) (map' : map_ref) (size' : Z),
       bpf_core_type_exists struct_bpf_ringbuf k' = true →
       region r.1 k' = Some cell →
       let s := gadget_submit_buf ctx map' r.1 size' k' in
       s.1 = 0
       ∧ consumer_view map s.2 = consumer_view map k' ++ [cell]
       ∧ region r.1 s.2 = None
       ∧ k_perf_arrays s.2 = k_perf_arrays k'
       ∧ k_trace s.2 = k_trace k' ++ [call_ringbuf_submit r.1 0])
  ∧ (∀ (k0 : kernel) (ctx : ctx_ptr) (map0 : map_ref) (buf : ptr) (size0 : Z),
       bpf_core_type_exists struct_bpf_ringbuf k0 = true →
       (gadget_submit_buf ctx map0 buf size0 k0).1 = 0
       ∧ k_perf_arrays (gadget_submit_buf ctx map0 buf size0 k0).2 = k_perf_arrays k0)
  ∧ (∀ (K : Type) (helpers : BpfHelpers K) (k0 : K)
       (ctx : ctx_ptr) (map0 : map_ref) (buf : ptr) (size0 : Z),
       bpf_core_type_exists struct_bpf_ringbuf k0 = true →
       (gadget_submit_buf ctx map0 buf size0 k0).1 = 0).
Proof.
  intros Hflag r Hok. subst r. rewrite reserve_queue_mode in * by done.
  destruct (ringbuf_reserve_success _ _ _ _ Hok) as (rb & Hrb & _ & Hsize & Hptr & Hreg).
  rewrite Hptr. split; [by eauto|]. split; [|split].
  - intros k' cell ctx map' size' Hflag' Hcell s. subst s.
    rewrite submit_queue_mode by done. cbn [fst snd].
    destruct (ringbuf_submit_pending _ _ _ 0 _ Hcell) as [Hview Hgone].
    destruct (ringbuf_submit_frame (ringbuf_mem map (rb_next rb)) 0 k')
      as (_ & _ & _ & Hperf & Htrace).
    done.
  - intros k0 ctx map0 buf size0 Hflag0.
    rewrite submit_queue_mode by done. cbn [fst snd].
    by destruct (ringbuf_submit_frame buf 0 k0) as (_ & _ & _ & Hperf & _).
  - intros K helpers k0 ctx map0 buf size0 Hflag0.
    unfold gadget_submit_buf. by rewrite Hflag0.
Qed.

Lemma queue_submit_publishes_witness :
  let r := gadget_reserve_buf "events" 4 (queue_kernel 4096 xab) in
  let s := gadget_submit_buf 7%nat "events" r.1 4
             (store_bytes r.1 [x01; x02; x03; x04] r.2) in
  s.1 = 0 ∧ consumer_view "events" s.2 = [[x01; x02; x03; x04]].
Proof.
  pose proof (queue_submit_publishes (queue_kernel 4096 xab) "events" 4 eq_refl) as H.
  destruct H as (_ & Hsubmit & _ & _); [by vm_compute|].
  specialize (Hsubmit
    (store_bytes (gadget_reserve_buf "events" 4 (queue_kernel 4096 xab)).1
       [x01; x02; x03; x04] (gadget_reserve_buf "events" 4 (queue_kernel 4096 xab)).2)
    [x01; x02; x03; x04] 7%nat "events" 4 eq_refl eq_refl).
  destruct Hsubmit as (Hret & Hview & _).
  split; [exact Hret | exact Hview].
Defined.

(** C5: in slot mode submit is one call of [bpf_perf_event_output] with the
    caller's context, map, buffer and size and the current-CPU flag, and its
    result is the helper's, status included.  For the slot handle and a
    size within the slot, the bytes the helper is handed are the first
    [size] bytes of the slot region; an accepted call (status not negative)
    appends them to the current CPU's buffer, a rejected one (negative)
    appends nothing. *)
Theorem slot_submit_relays_status
    (k : kernel) (ctx : ctx_ptr) (map : map_ref) (buf : ptr) (size : Z) :
  bpf_core_type_exists struct_bpf_ringbuf k = false →
  let s := gadget_submit_buf ctx map buf size k in
  s = bpf_perf_event_output ctx map BPF_F_CURRENT_CPU buf size k
  ∧ k_trace s.2
    = k_trace k ++ [call_perf_event_output ctx map BPF_F_CURRENT_CPU buf size
                      (load_bytes buf size k)]
  ∧ k_ringbufs s.2 = k_ringbufs k
  ∧ (buf = (gadget_reserve_buf map size k).1 →
     slot_table_initialized k →
     0 ≤ size ≤ MAX_EVENT_SIZE →
     ∃ cell, region (slot k) k = Some cell
       ∧ load_bytes buf size k = Some (take (Z.to_nat size) cell)
       ∧ Z.of_nat (length (take (Z.to_nat size) cell)) = size)
  ∧ (0 ≤ s.1 →
     ∃ bytes, load_bytes buf size k = Some bytes
       ∧ perf_samples map (k_cpu k) s.2 = perf_samples map (k_cpu k) k ++ [bytes])
  ∧ (s.1 < 0 → k_perf_arrays s.2 = k_perf_arrays k).
Proof.
  intros Hflag s. subst s.
  rewrite submit_slot_mode by done.
  split; [done|]. split; [apply perf_event_output_trace|]. split; [|split; [|split]].
  - unfold kernel_perf_event_output. crush_model.
  - rewrite reserve_slot_mode by done.
    intros -> Hinit Hsize.
    rewrite lookup_slot_initialized by done. cbn [fst].
    destruct (region_slot_initialized k Hinit) as (cell & Hcell & Hlen).
    exists cell. split; [done|].
    unfold load_bytes. rewrite Hcell. simpl.
    rewrite bool_decide_eq_true_2 by lia.
    split; [done|]. rewrite length_take. lia.
  - apply perf_event_output_accepted.
  - intros Hneg. by rewrite perf_event_output_rejected.
Qed.

Lemma slot_submit_relays_status_witness :
  let k := store_bytes (slot slot_kernel) (replicate 64 xab) slot_kernel in
  let s := gadget_submit_buf 7%nat "events" (slot slot_kernel) 64 k in
  s = bpf_perf_event_output 7%nat "events" BPF_F_CURRENT_CPU (slot slot_kernel) 64 k
  ∧ s.1 = 0
  ∧ perf_samples "events" 1 s.2 = [replicate 64 xab].
Proof.
  pose proof (slot_submit_relays_status
    (store_bytes (slot slot_kernel) (replicate 64 xab) slot_kernel)
    7%nat "events" (slot slot_kernel) 64 eq_refl) as (Hcall & _ & _ & _ & Hok & _).
  split; [exact Hcall|]. split; [reflexivity|].
  destruct Hok as (bytes & Hbytes & Hsamples); [by vm_compute|].
  assert (Some bytes = Some (replicate 64 xab)) as [= ->]
    by (rewrite <- Hbytes; vm_compute; reflexivity).
  exact Hsamples.
Defined.

(** C6: in queue mode, when the ring buffer yields no record, reserve
    returns null after that one call of [bpf_ringbuf_reserve]: no ring
    buffer, per-CPU array or perf buffer has changed, no consumer sees
    anything new, and a caller that emits an event of that size gives up
    without a submission. *)
Theorem queue_reserve_exhausted (k : kernel) (map : map_ref) (size : Z) :
  bpf_core_type_exists struct_bpf_ringbuf k = true →
  (bpf_ringbuf_reserve map size 0 k).1 = NULL →
  let r := gadget_reserve_buf map size k in
  r.1 = NULL
  ∧ k_ringbufs r.2 = k_ringbufs k
  ∧ k_percpu_arrays r.2 = k_percpu_arrays k
  ∧ k_perf_arrays r.2 = k_perf_arrays k
  ∧ (∀ m, consumer_view m r.2 = consumer_view m k)
  ∧ k_trace r.2 = k_trace k ++ [call_ringbuf_reserve map size 0]
  ∧ (∀ (ctx : ctx_ptr) (data : list byte),
       Z.of_nat (length data) = size → emit ctx map data k = (None, r.2)).
Proof.
  intros Hflag Hnull r. subst r. simpl in Hnull.
  rewrite reserve_queue_mode by done.
  rewrite (ringbuf_reserve_failure _ _ _ _ Hnull).
  repeat split; try done.
  intros ctx data Hlen. unfold emit.
  rewrite Hlen, reserve_queue_mode by done.
  rewrite (surjective_pairing (kernel_ringbuf_reserve map size 0 k)).
  rewrite Hnull, (ringbuf_reserve_failure _ _ _ _ Hnull).
  by rewrite decide_True.
Qed.

Lemma queue_reserve_exhausted_witness :
  let r := gadget_reserve_buf "events" 200 (queue_kernel 100 x00) in
  r.1 = NULL
  ∧ consumer_view "events" r.2 = []
  ∧ k_trace r.2 = [call_ringbuf_reserve "events" 200 0].
Proof.
  pose proof (queue_reserve_exhausted (queue_kernel 100 x00) "events" 200 eq_refl eq_refl)
    as (Hnull & _ & _ & _ & Hview & Htrace & _).
  split; [exact Hnull|]. split; [|exact Htrace].
  by rewrite Hview.
Defined.

(** C10: in queue mode the result of submit, status and state, is the same
    for any two calls with the same buffer in the same state, whatever
    their context, map and size arguments; this holds for any meaning of
    the helpers. *)
Theorem queue_submit_ignores_ctx_map_size {K : Type} `{BpfHelpers K}
    (k : K) (buf : ptr) (ctx1 ctx2 : ctx_ptr) (map1 map2 : map_ref) (size1 size2 : Z) :
  bpf_core_type_exists struct_bpf_ringbuf k = true →
  gadget_submit_buf ctx1 map1 buf size1 k = gadget_submit_buf ctx2 map2 buf size2 k.
Proof. intros Hflag. unfold gadget_submit_buf. by rewrite Hflag. Qed.

Lemma queue_submit_ignores_ctx_map_size_witness :
  gadget_submit_buf 1%nat "events" (ringbuf_mem "events" 0) 100
    (gadget_reserve_buf "events" 100 (queue_kernel 4096 xab)).2
  = gadget_submit_buf 2%nat "other" (ringbuf_mem "events" 0) 5
      (gadget_reserve_buf "events" 100 (queue_kernel 4096 xab)).2.
Proof.
  apply (queue_submit_ignores_ctx_map_size
           (gadget_reserve_buf "events" 100 (queue_kernel 4096 xab)).2).
  reflexivity.
Defined.

(** ** Executions *)

Section Executions.
Implicit Types (k : kernel) (m map : map_ref) (p buf : ptr).

Lemma slot_lookup_ext k k' :
  k_cpu k' = k_cpu k →
  k_percpu_arrays k' = k_percpu_arrays k →
  slot_lookup k' = slot_lookup k.
Proof.
  intros Hcpu Hpa. unfold slot_lookup. simpl.
  unfold kernel_map_lookup_elem. cbn [log_call k_percpu_arrays k_cpu].
  rewrite Hcpu, Hpa. crush_model.
Qed.

Lemma ringbuf_reserve_frame map size flags k :
  k_cpu (kernel_ringbuf_reserve map size flags k).2 = k_cpu k
  ∧ k_btf (kernel_ringbuf_reserve map size flags k).2 = k_btf k
  ∧ k_percpu_arrays (kernel_ringbuf_reserve map size flags k).2 = k_percpu_arrays k
  ∧ k_perf_arrays (kernel_ringbuf_reserve map size flags k).2 = k_perf_arrays k.
Proof. unfold kernel_ringbuf_reserve. crush_model. Qed.

Lemma map_lookup_elem_state map key k :
  (kernel_map_lookup_elem map key k).2 = log_call (call_map_lookup_elem map key) k.
Proof. unfold kernel_map_lookup_elem. crush_model. Qed.

Lemma perf_event_output_frame ctx map flags data size k :
  k_cpu (kernel_perf_event_output ctx map flags data size k).2 = k_cpu k
  ∧ k_btf (kernel_perf_event_output ctx map flags data size k).2 = k_btf k
  ∧ k_percpu_arrays (kernel_perf_event_output ctx map flags data size k).2 = k_percpu_arrays k
  ∧ k_ringbufs (kernel_perf_event_output ctx map flags data size k).2 = k_ringbufs k.
Proof. unfold kernel_perf_event_output. crush_model. Qed.

(** A write changes what a cell holds, never which cells there are. *)
Lemma store_bytes_slot_lookup p data k :
  slot_lookup (store_bytes p data k) = slot_lookup k.
Proof.
  destruct (store_bytes_frame p data k) as (Hcpu & _).
  unfold slot_lookup. simpl. unfold kernel_map_lookup_elem.
  cbn [log_call k_percpu_arrays k_cpu]. rewrite Hcpu.
  change (map_name gadget_heap) with "gadget_heap".
  destruct p as [|m cpu key|m rec]; [done| |]; unfold store_bytes.
  - destruct (k_percpu_arrays k !! m) as [pa|] eqn:Hpa; [|done].
    destruct (pa_cells pa !! (cpu, key)) as [cell|] eqn:Hcell; [|done].
    case_bool_decide; [|done]. cbn [set_percpu_array k_percpu_arrays].
    destruct (decide (m = "gadget_heap")) as [->|Hne].
    + rewrite lookup_insert_eq, Hpa. cbn [pa_max_entries pa_cells].
      case_bool_decide; [|done].
      destruct (decide ((cpu, key) = (k_cpu k, 0))) as [Heq|Hneq].
      * rewrite Heq in *. by rewrite lookup_insert_eq, Hcell.
      * rewrite lookup_insert_ne by done.
        by destruct (pa_cells pa !! (k_cpu k, 0)).
    + rewrite lookup_insert_ne by done. crush_model.
  - crush_model.
Qed.

(** What every step of an execution keeps: the kernel's type
    information, the CPU, the pointer to the scratch slot; and the calls
    it logs are calls of the selected transport. *)
Lemma kstep_invariant k k' :
  kstep k k' →
  k_btf k' = k_btf k
  ∧ k_cpu k' = k_cpu k
  ∧ slot_lookup k' = slot_lookup k
  ∧ ∃ calls, k_trace k' = k_trace k ++ calls
      ∧ Forall (λ c, call_transport c = selected k) calls.
Proof.
  destruct 1 as [map size k|p data k|ctx map buf size k].
  - unfold gadget_reserve_buf, selected.
    destruct (bpf_core_type_exists struct_bpf_ringbuf k) eqn:Hflag; simpl.
    + destruct (ringbuf_reserve_frame map size 0 k) as (Hcpu & Hbtf & Hpa & _).
      split_and!; try done; [by apply slot_lookup_ext|].
      exists [call_ringbuf_reserve map size 0].
      split; [apply ringbuf_reserve_trace|]. by repeat constructor.
    + rewrite map_lookup_elem_state.
      split_and!; try done; [by apply slot_lookup_ext|].
      exists [call_map_lookup_elem (map_name gadget_heap) 0].
      split; [done|]. by repeat constructor.
  - destruct (store_bytes_frame p data k) as (Hcpu & Hbtf & _ & Htrace).
    split_and!; try done; [apply store_bytes_slot_lookup|].
    exists []. by rewrite app_nil_r.
  - unfold gadget_submit_buf, selected.
    destruct (bpf_core_type_exists struct_bpf_ringbuf k) eqn:Hflag; simpl.
    + destruct (ringbuf_submit_frame buf 0 k) as (Hcpu & Hbtf & Hpa & _ & Htrace).
      split_and!; try done; [by apply slot_lookup_ext|].
      exists [call_ringbuf_submit buf 0]. split; [done|]. by repeat constructor.
    + destruct (perf_event_output_frame ctx map BPF_F_CURRENT_CPU buf size k)
        as (Hcpu & Hbtf & Hpa & _).
      split_and!; try done; [by apply slot_lookup_ext|].
      eexists. split; [apply perf_event_output_trace|]. by repeat constructor.
Qed.

Lemma execution_invariant k k' :
  rtc kstep k k' →
  k_btf k' = k_btf k
  ∧ k_cpu k' = k_cpu k
  ∧ slot_lookup k' = slot_lookup k
  ∧ ∃ calls, k_trace k' = k_trace k ++ calls
      ∧ Forall (λ c, call_transport c = selected k) calls.
Proof.
  induction 1 as [k|k k1 k' Hstep _ IH].
  - split_and!; try done. exists []. by rewrite app_nil_r.
  - destruct (kstep_invariant _ _ Hstep) as (Hbtf & Hcpu & Hslot & calls & Htrace & Hcalls).
    destruct IH as (Hbtf' & Hcpu' & Hslot' & calls' & Htrace' & Hcalls').
    assert (selected k1 = selected k) as Hsel
      by (unfold selected; simpl; unfold kernel_core_type_exists; by rewrite Hbtf).
    split_and!; try congruence.
    exists (calls ++ calls'). split.
    + by rewrite Htrace', Htrace, app_assoc.
    + apply Forall_app. split; [done|]. by rewrite <- Hsel.
Qed.
End Executions.

Section SlotReserve.
Implicit Types (k : kernel) (m map : map_ref) (p buf : ptr).

(** In slot mode reserve is the lookup of the scratch slot, whatever its
    arguments. *)
Lemma reserve_slot_lookup map size k :
  bpf_core_type_exists struct_bpf_ringbuf k = false →
  (gadget_reserve_buf map size k).1 = slot_lookup k
  ∧ (gadget_reserve_buf map size k).2
    = log_call (call_map_lookup_elem (map_name gadget_heap) 0) k.
Proof.
  intros Hflag. rewrite reserve_slot_mode by done.
  split; [done|]. apply map_lookup_elem_state.
Qed.

Lemma execution_flag k k' :
  rtc kstep k k' →
  bpf_core_type_exists struct_bpf_ringbuf k' = bpf_core_type_exists struct_bpf_ringbuf k.
Proof.
  intros Hrun. destruct (execution_invariant _ _ Hrun) as (Hbtf & _).
  simpl. unfold kernel_core_type_exists. by rewrite Hbtf.
Qed.
End SlotReserve.

(** C3: in slot mode, for a size up to [MAX_EVENT_SIZE], reserve returns
    the result of looking up index 0 of [gadget_heap] on the running CPU:
    the same pointer for every map and size, and again the same at every
    later point of the execution, whatever was reserved, written or
    submitted in between; with the slot table initialized it is the cell of
    the running CPU at index 0.  The call allocates nothing: ring buffers,
    per-CPU arrays and perf buffers are as before, the one lookup is
    logged. *)
Theorem slot_reserve_same_region (k : kernel) (map : map_ref) (size : Z) :
  bpf_core_type_exists struct_bpf_ringbuf k = false →
  size ≤ MAX_EVENT_SIZE →
  let r := gadget_reserve_buf map size k in
  (slot_table_initialized k → r.1 = map_value (map_name gadget_heap) (k_cpu k) 0)
  ∧ (∀ (map' : map_ref) (size' : Z),
       size' ≤ MAX_EVENT_SIZE → (gadget_reserve_buf map' size' k).1 = r.1)
  ∧ (∀ (k' : kernel) (map' : map_ref) (size' : Z),
       rtc kstep r.2 k' →
       size' ≤ MAX_EVENT_SIZE →
       k_cpu k' = k_cpu k ∧ (gadget_reserve_buf map' size' k').1 = r.1)
  ∧ k_ringbufs r.2 = k_ringbufs k
  ∧ k_percpu_arrays r.2 = k_percpu_arrays k
  ∧ k_perf_arrays r.2 = k_perf_arrays k
  ∧ k_trace r.2 = k_trace k ++ [call_map_lookup_elem (map_name gadget_heap) 0].
Proof.
  intros Hflag Hsize r. subst r.
  destruct (reserve_slot_lookup map size k Hflag) as [Hptr Hstate].
  rewrite Hptr, Hstate. split_and!; try done.
  - intros Hinit. unfold slot_lookup. simpl.
    by rewrite lookup_slot_initialized.
  - intros map' size' _. by destruct (reserve_slot_lookup map' size' k Hflag) as [-> _].
  - intros k' map' size' Hrun _.
    assert (rtc kstep k k') as Hrun'.
    { eapply rtc_l; [|exact Hrun]. rewrite <- Hstate. constructor. }
    destruct (execution_invariant _ _ Hrun') as (_ & Hcpu & Hslot & _).
    split; [done|].
    pose proof (execution_flag _ _ Hrun') as Hflag'. rewrite Hflag in Hflag'.
    destruct (reserve_slot_lookup map' size' k' Hflag') as [-> _]. done.
Qed.

Lemma slot_reserve_same_region_witness :
  let r := gadget_reserve_buf "events" 64 slot_kernel in
  r.1 = map_value "gadget_heap" 1 0
  ∧ (gadget_reserve_buf "other" 10240 slot_kernel).1 = r.1
  ∧ (gadget_reserve_buf "events" 128 (store_bytes r.1 [x01; x02] r.2)).1 = r.1.
Proof.
  pose proof (slot_reserve_same_region slot_kernel "events" 64 eq_refl) as H.
  destruct H as (Hslot & Hany & Hlater & _); [by vm_compute|].
  split; [exact (Hslot slot_kernel_initialized)|].
  split; [apply Hany; by vm_compute|].
  apply Hlater; [|by vm_compute].
  apply rtc_once. constructor.
Defined.

(** C9: in slot mode reserve looks at no size: every size gives the same
    result, sizes above [MAX_EVENT_SIZE] included; with the slot table
    initialized that result is never null, it is the slot of the running
    CPU, a region of exactly 10240 bytes. *)
Theorem slot_reserve_no_size_check (k : kernel) (map : map_ref) (size : Z) :
  bpf_core_type_exists struct_bpf_ringbuf k = false →
  slot_table_initialized k →
  let r := gadget_reserve_buf map size k in
  r.1 ≠ NULL
  ∧ r.1 = slot k
  ∧ (∃ cell, region r.1 r.2 = Some cell ∧ Z.of_nat (length cell) = 10240)
  ∧ (∀ size' : Z, gadget_reserve_buf map size' k = r).
Proof.
  intros Hflag Hinit r. subst r.
  rewrite reserve_slot_mode, lookup_slot_initialized by done. cbn [fst snd].
  split_and!; try done.
  - destruct (region_slot_initialized k Hinit) as (cell & Hcell & Hlen).
    exists cell. by rewrite region_log_call.
  - intros size'. by rewrite reserve_slot_mode, lookup_slot_initialized.
Qed.

Lemma slot_reserve_no_size_check_witness :
  let r := gadget_reserve_buf "events" 20000 slot_kernel in
  r.1 ≠ NULL
  ∧ r.1 = slot slot_kernel
  ∧ (∃ cell, region r.1 r.2 = Some cell ∧ Z.of_nat (length cell) = 10240)
  ∧ (∀ size' : Z, gadget_reserve_buf "events" size' slot_kernel = r).
Proof.
  apply (slot_reserve_no_size_check slot_kernel "events" 20000).
  - reflexivity.
  - exact slot_kernel_initialized.
Defined.

(** C7: no step of an execution changes the capability flag (reserve,
    submit and writes leave the kernel's type information alone), so every
    helper call an execution logs belongs to the one transport the flag
    selected at its start; a reserve at the start and a submit at any
    later point take matching branches: both the ring buffer helpers, or
    both the slot lookup and the perf output. *)
Theorem transport_fixed_for_execution (k k' : kernel) :
  rtc kstep k k' →
  bpf_core_type_exists struct_bpf_ringbuf k' = bpf_core_type_exists struct_bpf_ringbuf k
  ∧ (∃ calls, k_trace k' = k_trace k ++ calls
       ∧ Forall (λ c, call_transport c = selected k) calls)
  ∧ (∀ (map map' : map_ref) (size size' : Z) (ctx : ctx_ptr) (buf : ptr),
       (selected k = Queue
        ∧ gadget_reserve_buf map size k = bpf_ringbuf_reserve map size 0 k
        ∧ gadget_submit_buf ctx map' buf size' k' = (0, bpf_ringbuf_submit buf 0 k'))
       ∨ (selected k = Slot
          ∧ gadget_reserve_buf map size k = bpf_map_lookup_elem (map_name gadget_heap) 0 k
          ∧ gadget_submit_buf ctx map' buf size' k'
            = bpf_perf_event_output ctx map' BPF_F_CURRENT_CPU buf size' k')).
Proof.
  intros Hrun.
  pose proof (execution_flag _ _ Hrun) as Hflag.
  destruct (execution_invariant _ _ Hrun) as (_ & _ & _ & Hcalls).
  split_and!; try done.
  intros map map' size size' ctx buf.
  unfold selected, gadget_reserve_buf, gadget_submit_buf. rewrite Hflag.
  destruct (bpf_core_type_exists struct_bpf_ringbuf k); [left|right]; done.
Qed.

Lemma transport_fixed_for_execution_witness :
  let r := gadget_reserve_buf "events" 4 (queue_kernel 4096 xab) in
  let k' := store_bytes r.1 [x01; x02; x03; x04] r.2 in
  bpf_core_type_exists struct_bpf_ringbuf k' = true
  ∧ gadget_submit_buf 7%nat "events" r.1 4 k' = (0, bpf_ringbuf_submit r.1 0 k').
Proof.
  pose proof (transport_fixed_for_execution (queue_kernel 4096 xab)
    (store_bytes (gadget_reserve_buf "events" 4 (queue_kernel 4096 xab)).1
       [x01; x02; x03; x04] (gadget_reserve_buf "events" 4 (queue_kernel 4096 xab)).2))
    as H.
  destruct H as (Hflag & _ & Hbranch).
  { eapply rtc_l; [apply (step_reserve "events" 4)|].
    apply rtc_once. apply step_write. }
  split; [exact Hflag|].
  destruct (Hbranch "events" "events" 4 4 7%nat
              (gadget_reserve_buf "events" 4 (queue_kernel 4096 xab)).1)
    as [(_ & _ & Hsubmit)|(Hslot & _)].
  - exact Hsubmit.
  - discriminate Hslot.
Defined.

Section Fifo.
Implicit Types (k : kernel) (m map : map_ref) (p buf : ptr).

Lemma overwrite_all (data cell : list byte) :
  length cell = length data → overwrite data cell = data.
Proof.
  intros Hlen. unfold overwrite.
  rewrite drop_ge by lia. apply app_nil_r.
Qed.

(** One event in queue mode: it is submitted exactly when the ring
    buffer has room for it, and then it is the newest record the consumer
    reads. *)
Lemma emit_queue_mode ctx map data k :
  bpf_core_type_exists struct_bpf_ringbuf k = true →
  let e := emit ctx map data k in
  bpf_core_type_exists struct_bpf_ringbuf e.2 = true
  ∧ match k_ringbufs k !! map with
    | Some rb =>
        if bool_decide (Z.of_nat (length data) ≤ rb_free rb)
        then e.1 = Some 0
             ∧ consumer_view map e.2 = consumer_view map k ++ [data]
             ∧ ring_free map e.2 = Some (rb_free rb - Z.of_nat (length data))
        else e.1 = None
             ∧ consumer_view map e.2 = consumer_view map k
             ∧ ring_free map e.2 = Some (rb_free rb)
    | None =>
        e.1 = None
        ∧ consumer_view map e.2 = consumer_view map k
        ∧ ring_free map e.2 = None
    end.
Proof.
  intros Hflag e. subst e. unfold emit.
  rewrite reserve_queue_mode by done.
  unfold kernel_ringbuf_reserve, consumer_view, ring_free.
  cbn [log_call k_ringbufs].
  destruct (k_ringbufs k !! map) as [rb|] eqn:Hrb.
  - destruct (decide (Z.of_nat (length data) ≤ rb_free rb)) as [Hfit|Hfull].
    + rewrite !bool_decide_eq_true_2 by lia.
      rewrite decide_False by done.
      set (cell := fresh_record rb (Z.of_nat (length data))).
      assert (length cell = length data) as Hlen.
      { pose proof (length_fresh_record rb (Z.of_nat (length data))).
        subst cell. lia. }
      clearbody cell.
      unfold store_bytes. cbn [set_ringbuf k_ringbufs].
      rewrite lookup_insert_eq. cbn [rb_pending].
      rewrite lookup_insert_eq, bool_decide_eq_true_2 by lia.
      rewrite overwrite_all by done.
      cbn [set_ringbuf k_ringbufs rb_free rb_next rb_queue rb_junk].
      rewrite submit_queue_mode by done. cbn [fst snd].
      split.
      { unfold bpf_core_type_exists, kernel_helpers, kernel_core_type_exists.
        rewrite (proj1 (proj2 (ringbuf_submit_frame _ _ _))). exact Hflag. }
      unfold kernel_ringbuf_submit. cbn [log_call set_ringbuf k_ringbufs].
      rewrite lookup_insert_eq. cbn [rb_pending].
      rewrite lookup_insert_eq.
      cbn [set_ringbuf k_ringbufs rb_free rb_next rb_queue rb_junk].
      by rewrite lookup_insert_eq.
    + rewrite (bool_decide_eq_false_2 (Z.of_nat _ ≤ _)) by done.
      rewrite bool_decide_eq_false_2 by lia.
      rewrite decide_True by done. simpl. by rewrite Hrb.
  - rewrite decide_True by done. simpl. by rewrite Hrb.
Qed.

(** Events emitted one after the other in queue mode. *)
Lemma emit_all_queue_mode ctx map events k :
  bpf_core_type_exists struct_bpf_ringbuf k = true →
  consumer_view map (emit_all ctx map events k).2
  = consumer_view map k ++ (emit_all ctx map events k).1
  ∧ sublist (emit_all ctx map events k).1 events
  ∧ (∀ free, ring_free map k = Some free → total_size events ≤ free →
       (emit_all ctx map events k).1 = events).
Proof.
  revert k. induction events as [|data rest IH]; intros k Hflag.
  - simpl. by rewrite app_nil_r.
  - cbn [emit_all].
    pose proof (emit_queue_mode ctx map data k Hflag) as [Hflag1 Hemit].
    cbv zeta in Hflag1, Hemit.
    destruct (emit ctx map data k) as [r k1]. cbn [fst snd] in *.
    specialize (IH k1 Hflag1). destruct IH as (Hview & Hsub & Hall).
    destruct (emit_all ctx map rest k1) as [sent k2]. cbn [fst snd] in *.
    unfold ring_free in *.
    destruct (k_ringbufs k !! map) as [rb|]; simpl.
    + case_bool_decide as Hfit.
      * destruct Hemit as (-> & Hview1 & Hfree1).
        rewrite Hview, Hview1, <- app_assoc. split_and!; try done.
        -- by apply sublist_skip.
        -- intros free [= <-] Htotal. f_equal.
           apply (Hall _ Hfree1). simpl in Htotal. lia.
      * destruct Hemit as (-> & Hview1 & Hfree1).
        rewrite Hview, Hview1. split_and!; try done.
        -- by apply sublist_cons.
        -- intros free [= <-] Htotal. simpl in Htotal.
           assert (0 ≤ total_size rest); [|lia].
           clear. induction rest as [|x rest IH]; simpl; lia.
    + destruct Hemit as (-> & Hview1 & Hfree1).
      rewrite Hview, Hview1. split_and!; try done.
      by apply sublist_cons.
Qed.
End Fifo.

(** C8: in queue mode, for every sequence of events an execution unit
    emits one after the other (reserve, write, submit for each), the
    consumer of the ring reads what it read before followed by the
    submitted events in the order of their submission; the submitted events
    are the emitted ones less those whose reservation failed, and all of
    them when the ring has room for their total size. *)
Theorem queue_fifo_order
    (k : kernel) (ctx : ctx_ptr) (map : map_ref) (events : list (list byte)) :
  bpf_core_type_exists struct_bpf_ringbuf k = true →
  let r := emit_all ctx map events k in
  consumer_view map r.2 = consumer_view map k ++ r.1
  ∧ sublist r.1 events
  ∧ (∀ free : Z, ring_free map k = Some free → total_size events ≤ free → r.1 = events).
Proof. intros Hflag r. subst r. by apply emit_all_queue_mode. Qed.

Lemma queue_fifo_order_witness :
  let r := emit_all 7%nat "events" [replicate 100 x01; replicate 200 x02]
             (queue_kernel 4096 x00) in
  consumer_view "events" r.2 = [replicate 100 x01; replicate 200 x02].
Proof.
  pose proof (queue_fifo_order (queue_kernel 4096 x00) 7%nat "events"
                [replicate 100 x01; replicate 200 x02] eq_refl) as (Hview & _ & Hall).
  cbv zeta in *. rewrite Hview.
  rewrite (Hall 4096); [reflexivity|reflexivity|by vm_compute].
Defined.

(** ** Further properties of the scratch slot *)

Section SlotFacts.
Implicit Types (k : kernel) (m map : map_ref) (p buf : ptr).

Lemma flag_frame k k' :
  k_btf k' = k_btf k →
  bpf_core_type_exists struct_bpf_ringbuf k' = bpf_core_type_exists struct_bpf_ringbuf k.
Proof. intros Hbtf. simpl. unfold kernel_core_type_exists. by rewrite Hbtf. Qed.

Lemma reserve_slot_initialized map size k :
  bpf_core_type_exists struct_bpf_ringbuf k = false →
  slot_table_initialized k →
  gadget_reserve_buf map size k
  = (slot k, log_call (call_map_lookup_elem (map_name gadget_heap) 0) k).
Proof. intros Hflag Hinit. by rewrite reserve_slot_mode, lookup_slot_initialized. Qed.

Lemma initialized_frame k k' :
  k_cpu k' = k_cpu k →
  k_percpu_arrays k' = k_percpu_arrays k →
  slot_table_initialized k → slot_table_initialized k'.
Proof.
  intros Hcpu Hpa (pa & cell & H1 & H2 & H3 & H4).
  exists pa, cell. by rewrite Hcpu, Hpa.
Qed.

(** A write into the slot that fits keeps the slot table as declared and
    puts the bytes at the start of the cell. *)
Lemma store_slot_initialized data k :
  slot_table_initialized k →
  Z.of_nat (length data) ≤ MAX_EVENT_SIZE →
  slot_table_initialized (store_bytes (slot k) data k)
  ∧ ∃ cell, region (slot k) k = Some cell
      ∧ region (slot k) (store_bytes (slot k) data k) = Some (overwrite data cell).
Proof.
  intros (pa & cell & Hpa & Hmax & Hcell & Hlen) Hfit.
  change (value_size gadget_heap) with MAX_EVENT_SIZE in Hlen.
  assert (length data ≤ length cell)%nat as Hle by lia.
  assert (region (slot k) k = Some cell) as Hreg.
  { unfold slot. cbn [region]. rewrite Hpa. simpl. exact Hcell. }
  split; [|exists cell; split; [done|by apply load_store_bytes]].
  unfold slot, store_bytes. rewrite Hpa, Hcell, bool_decide_eq_true_2 by done.
  eexists _, (overwrite data cell).
  cbn [set_percpu_array k_percpu_arrays k_cpu].
  split_and!.
  - apply lookup_insert_eq.
  - done.
  - apply lookup_insert_eq.
  - rewrite length_overwrite by done. exact Hlen.
Qed.

Lemma log_call_initialized c k :
  slot_table_initialized k → slot_table_initialized (log_call c k).
Proof. by apply initialized_frame. Qed.
End SlotFacts.



Section SlotEmit.
Implicit Types (k : kernel) (m map : map_ref) (p buf : ptr).

(** One event in slot mode, the slot table initialized: the event is always
    submitted, the status is the helper's, and an accepted event is the
    newest sample of the running CPU. *)
Lemma emit_slot_mode ctx map data k :
  bpf_core_type_exists struct_bpf_ringbuf k = false →
  slot_table_initialized k →
  Z.of_nat (length data) ≤ MAX_EVENT_SIZE →
  let e := emit ctx map data k in
  bpf_core_type_exists struct_bpf_ringbuf e.2 = false
  ∧ slot_table_initialized e.2
  ∧ k_cpu e.2 = k_cpu k
  ∧ (∃ cell, region (slot k) e.2 = Some cell ∧ take (length data) cell = data)
  ∧ ∃ ret, e.1 = Some ret
      ∧ (0 ≤ ret → perf_samples map (k_cpu k) e.2 = perf_samples map (k_cpu k) k ++ [data])
      ∧ (ret < 0 → perf_samples map (k_cpu k) e.2 = perf_samples map (k_cpu k) k).
Proof.
  intros Hflag Hinit Hsize e. subst e. unfold emit.
  rewrite reserve_slot_initialized by done.
  rewrite decide_False by done.
  set (ka := log_call _ k).
  assert (slot_table_initialized ka) as Hinita by by apply log_call_initialized.
  change (slot k) with (slot ka).
  destruct (store_slot_initialized data ka Hinita Hsize)
    as (Hinit1 & cell & Hcell & Hcell1).
  destruct (region_slot_initialized ka Hinita) as (cell' & Hcell' & Hcelllen).
  assert (cell' = cell) as -> by congruence.
  assert (length data ≤ length cell)%nat as Hfit by lia.
  destruct (load_store_bytes (slot ka) data cell ka Hcell Hfit) as [_ Hload].
  destruct (store_bytes_frame (slot ka) data ka) as (Hcpu1 & Hbtf1 & Hperf1 & _).
  set (k1 := store_bytes (slot ka) data ka) in *.
  assert (bpf_core_type_exists struct_bpf_ringbuf k1 = false) as Hflag1
    by (by rewrite (flag_frame ka k1)).
  rewrite submit_slot_mode by done.
  destruct (perf_event_output_frame ctx map BPF_F_CURRENT_CPU (slot ka)
              (Z.of_nat (length data)) k1) as (Hcpu2 & Hbtf2 & Hpa2 & _).
  pose proof (perf_event_output_accepted ctx map (slot ka) (Z.of_nat (length data)) k1)
    as Hok.
  pose proof (perf_event_output_rejected ctx map BPF_F_CURRENT_CPU (slot ka)
                (Z.of_nat (length data)) k1) as Hrej.
  destruct (kernel_perf_event_output ctx map BPF_F_CURRENT_CPU (slot ka)
              (Z.of_nat (length data)) k1) as [ret k2].
  cbn [fst snd] in *.
  assert (k_cpu k1 = k_cpu k) as Hcpu by (by rewrite Hcpu1).
  assert (∀ cpu, perf_samples map cpu k1 = perf_samples map cpu k) as Hsame.
  { intros cpu. unfold perf_samples. by rewrite Hperf1. }
  split_and!.
  - by rewrite (flag_frame k1 k2).
  - by apply (initialized_frame k1 k2).
  - congruence.
  - exists (overwrite data cell). split; [|apply take_overwrite].
    unfold slot in *. cbn [region] in *. by rewrite Hpa2.
  - exists ret. split_and!; [done| |].
    + intros Hret. destruct (Hok Hret) as (bytes & Hbytes & Hsamples).
      rewrite Hcpu in Hsamples. rewrite Hsamples, Hsame. congruence.
    + intros Hret. rewrite (Hrej Hret). by rewrite <- Hsame.
Qed.

Lemma emit_accepted_slot_mode ctx map events k :
  bpf_core_type_exists struct_bpf_ringbuf k = false →
  slot_table_initialized k →
  Forall (λ data, Z.of_nat (length data) ≤ MAX_EVENT_SIZE) events →
  perf_samples map (k_cpu k) (emit_accepted ctx map events k).2
  = perf_samples map (k_cpu k) k ++ (emit_accepted ctx map events k).1
  ∧ sublist (emit_accepted ctx map events k).1 events.
Proof.
  intros Hflag Hinit Hsizes. revert k Hflag Hinit.
  induction Hsizes as [|data rest Hsize _ IH]; intros k Hflag Hinit.
  - simpl. by rewrite app_nil_r.
  - cbn [emit_accepted].
    pose proof (emit_slot_mode ctx map data k Hflag Hinit Hsize)
      as (Hflag1 & Hinit1 & Hcpu1 & _ & ret & Hret & Hok & Hrej).
    cbv zeta in *.
    destruct (emit ctx map data k) as [r k1]. cbn [fst snd] in *. subst r.
    specialize (IH k1 Hflag1 Hinit1). rewrite Hcpu1 in IH.
    destruct IH as [Hview Hsub].
    destruct (emit_accepted ctx map rest k1) as [accepted k2]. cbn [fst snd] in *.
    case_bool_decide as Hstatus.
    + rewrite Hview, (Hok Hstatus), <- app_assoc. split; [done|].
      by apply sublist_skip.
    + rewrite Hview, Hrej by lia. split; [done|]. by apply sublist_cons.
Qed.
End SlotEmit.

(** X2: the slot is never cleared.  In slot mode, after an event was
    reserved, written and submitted, the next reservation returns the same
    region and the region still starts with the bytes of that event,
    whether the helper accepted them or not. *)
Theorem slot_keeps_previous_event
    (k : kernel) (ctx : ctx_ptr) (map map' : map_ref) (data : list byte) (size' : Z) :
  bpf_core_type_exists struct_bpf_ringbuf k = false →
  slot_table_initialized k →
  Z.of_nat (length data) ≤ MAX_EVENT_SIZE →
  let e := emit ctx map data k in
  let r := gadget_reserve_buf map' size' e.2 in
  r.1 = (gadget_reserve_buf map (Z.of_nat (length data)) k).1
  ∧ ∃ cell, region r.1 r.2 = Some cell
      ∧ take (length data) cell = data
      ∧ Z.of_nat (length cell) = MAX_EVENT_SIZE.
Proof.
  intros Hflag Hinit Hsize e r. subst e r.
  pose proof (emit_slot_mode ctx map data k Hflag Hinit Hsize)
    as (Hflag1 & Hinit1 & Hcpu1 & (cell & Hcell & Htake) & _).
  cbv zeta in *.
  rewrite !reserve_slot_initialized by done. cbn [fst snd].
  assert (slot (emit ctx map data k).2 = slot k) as Hslot
    by (unfold slot; by rewrite Hcpu1).
  split; [done|].
  rewrite Hslot, region_log_call. exists cell. split_and!; try done.
  destruct (region_slot_initialized _ Hinit1) as (cell' & Hcell' & Hlen).
  rewrite Hslot in Hcell'. congruence.
Qed.

Lemma slot_keeps_previous_event_witness :
  let e := emit 7%nat "events" [x01; x02; x03] slot_kernel in
  let r := gadget_reserve_buf "events" 64 e.2 in
  ∃ cell, region r.1 r.2 = Some cell ∧ take 3 cell = [x01; x02; x03].
Proof.
  pose proof (slot_keeps_previous_event slot_kernel 7%nat "events" "events"
                [x01; x02; x03] 64 eq_refl slot_kernel_initialized) as H.
  destruct H as (_ & cell & Hcell & Htake & _); [by vm_compute|].
  exists cell. split; [exact Hcell | exact Htake].
Defined.

(** X3: in slot mode, the slot table initialized, for every sequence of
    events no longer than the slot that are emitted one after the other,
    the perf buffer of the running CPU holds what it held before followed by
    the events whose submission reported a status that is not negative, each
    intact and in the order of emission, although all of them went through
    the one slot. *)
Theorem slot_events_delivered_in_order
    (k : kernel) (ctx : ctx_ptr) (map : map_ref) (events : list (list byte)) :
  bpf_core_type_exists struct_bpf_ringbuf k = false →
  slot_table_initialized k →
  Forall (λ data, Z.of_nat (length data) ≤ MAX_EVENT_SIZE) events →
  let r := emit_accepted ctx map events k in
  perf_samples map (k_cpu k) r.2 = perf_samples map (k_cpu k) k ++ r.1
  ∧ sublist r.1 events.
Proof. intros Hflag Hinit Hsizes r. subst r. by apply emit_accepted_slot_mode. Qed.

Lemma slot_events_delivered_in_order_witness :
  let r := emit_accepted 7%nat "events" [[x01; x02]; [x03]; [x04; x05; x06]] slot_kernel in
  perf_samples "events" 1 r.2 = [[x01; x02]; [x03]; [x04; x05; x06]].
Proof.
  pose proof (slot_events_delivered_in_order slot_kernel 7%nat "events"
                [[x01; x02]; [x03]; [x04; x05; x06]] eq_refl slot_kernel_initialized)
    as H.
  destruct H as [Hsamples _].
  { repeat constructor; by vm_compute. }
  cbv zeta in *.
  transitivity (perf_samples "events" (k_cpu slot_kernel) slot_kernel
    ++ (emit_accepted 7%nat "events" [[x01; x02]; [x03]; [x04; x05; x06]] slot_kernel).1).
  - exact Hsamples.
  - vm_compute. reflexivity.
Defined.

(** ** What an execution never touches *)

Section Untouched.
Implicit Types (k : kernel) (m map : map_ref) (p buf : ptr).


End Untouched.



Section ReservedLength.
Implicit Types (k : kernel) (m map : map_ref) (p buf : ptr).

Lemma ringbuf_reserve_consumer_view map size flags k :
  consumer_view map (kernel_ringbuf_reserve map size flags k).2 = consumer_view map k.
Proof.
  unfold kernel_ringbuf_reserve, consumer_view. cbn [log_call k_ringbufs].
  destruct (k_ringbufs k !! map) as [rb|] eqn:Hrb; cbn [snd log_call k_ringbufs].
  - case_bool_decide; cbn [snd set_ringbuf log_call k_ringbufs].
    + by rewrite lookup_insert_eq.
    + by rewrite Hrb.
  - by rewrite Hrb.
Qed.
End ReservedLength.

(** X5: in queue mode the record the consumer gets has the length that was
    reserved, whatever size is passed to submit and however few bytes were
    written: the bytes written come first, and the rest of the record is
    what lay in the ring's data area at the reservation. *)
Theorem queue_publishes_reserved_length
    (k : kernel) (ctx : ctx_ptr) (map map' : map_ref) (size size' : Z) (data : list byte) :
  bpf_core_type_exists struct_bpf_ringbuf k = true →
  let r := gadget_reserve_buf map size k in
  r.1 ≠ NULL →
  Z.of_nat (length data) ≤ size →
  let s := gadget_submit_buf ctx map' r.1 size' (store_bytes r.1 data r.2) in
  ∃ rb record,
    k_ringbufs k !! map = Some rb
    ∧ consumer_view map s.2 = consumer_view map k ++ [record]
    ∧ record = data ++ drop (length data) (fresh_record rb size)
    ∧ Z.of_nat (length record) = size.
Proof.
  intros Hflag r Hok Hfit s. subst r s.
  rewrite reserve_queue_mode in * by done.
  destruct (ringbuf_reserve_success _ _ _ _ Hok) as (rb & Hrb & _ & Hsize & Hptr & Hreg).
  pose proof (length_fresh_record rb size (proj1 Hsize)) as Hlen.
  assert (length data ≤ length (fresh_record rb size))%nat as Hle by lia.
  rewrite Hptr in *.
  destruct (load_store_bytes _ data _ _ Hreg Hle) as [Hstored _].
  destruct (ringbuf_reserve_frame map size 0 k) as (_ & Hbtf & _).
  destruct (store_bytes_frame (ringbuf_mem map (rb_next rb)) data
              (kernel_ringbuf_reserve map size 0 k).2) as (_ & Hbtf' & _).
  rewrite submit_queue_mode
    by (rewrite (flag_frame _ _ Hbtf'), (flag_frame _ _ Hbtf); done).
  cbn [snd].
  destruct (ringbuf_submit_pending _ _ _ 0 _ Hstored) as [Hview _].
  exists rb, (overwrite data (fresh_record rb size)).
  split_and!; try done.
  - by rewrite Hview, store_bytes_consumer_view, ringbuf_reserve_consumer_view.
  - rewrite length_overwrite by done. exact Hlen.
Qed.

Lemma queue_publishes_reserved_length_witness :
  let r := gadget_reserve_buf "events" 4 (queue_kernel 4096 xab) in
  let s := gadget_submit_buf 7%nat "events" r.1 1 (store_bytes r.1 [x01] r.2) in
  consumer_view "events" s.2 = [[x01; xab; xab; xab]].
Proof.
  pose proof (queue_publishes_reserved_length (queue_kernel 4096 xab) 7%nat
                "events" "events" 4 1 [x01] eq_refl) as H.
  destruct H as (rb & record & Hrb & Hview & -> & _); [by vm_compute|by vm_compute|].
  cbv zeta. rewrite Hview.
  vm_compute in Hrb. injection Hrb as <-. reflexivity.
Defined.

(** X7: slot-mode reserve has no fallback.  When [gadget_heap] has no cell
    at index 0 for the running CPU, reserve returns null for every map and
    size after its one lookup, and a caller that emits an event gives up:
    nothing is handed to [bpf_perf_event_output]. *)
Theorem slot_reserve_without_slot (k : kernel) (map : map_ref) (size : Z) :
  bpf_core_type_exists struct_bpf_ringbuf k = false →
  region (slot k) k = None →
  let r := gadget_reserve_buf map size k in
  r.1 = NULL
  ∧ r.2 = log_call (call_map_lookup_elem (map_name gadget_heap) 0) k
  ∧ ∀ (ctx : ctx_ptr) (map' : map_ref) (data : list byte),
      emit ctx map' data k = (None, r.2).
Proof.
  intros Hflag Hnone r. subst r.
  assert (∀ map' size',
            gadget_reserve_buf map' size' k
            = (NULL, log_call (call_map_lookup_elem (map_name gadget_heap) 0) k))
    as Hreserve.
  { intros map' size'. rewrite reserve_slot_mode by done.
    unfold kernel_map_lookup_elem. cbn [log_call k_percpu_arrays k_cpu].
    unfold slot in Hnone. cbn [region] in Hnone.
    destruct (k_percpu_arrays k !! map_name gadget_heap) as [pa|]; [|done].
    simpl in Hnone. rewrite Hnone. by case_bool_decide. }
  rewrite Hreserve. split_and!; try done.
  intros ctx map' data. unfold emit. rewrite Hreserve. by rewrite decide_True.
Qed.

Lemma slot_reserve_without_slot_witness :
  let r := gadget_reserve_buf "events" 64 unconfigured_kernel in
  r.1 = NULL
  ∧ emit 7%nat "events" [x01; x02] unconfigured_kernel = (None, r.2).
Proof.
  pose proof (slot_reserve_without_slot unconfigured_kernel "events" 64 eq_refl eq_refl)
    as (Hnull & _ & Hemit).
  split; [exact Hnull | apply Hemit].
Defined.

(** ** The declaration of [gadget_heap] *)

Section Declaration.
Implicit Types (k : kernel) (cpus : list nat).

(** The cells of a per-CPU array with one entry, for a list of CPUs. *)
Lemma one_entry_cells_lookup (v : list byte) cpus (cpu : nat) :
  (list_to_map
     ((λ ck : nat * nat, ((ck.1, Z.of_nat ck.2), v)) <$> list_prod cpus [0%nat])
     : gmap (nat * Z) (list byte)) !! (cpu, 0)
  = if decide (cpu ∈ cpus) then Some v else None.
Proof.
  induction cpus as [|c cpus IH].
  - cbn [list_prod fmap list_fmap list_to_map foldr].
    rewrite lookup_empty.
    destruct (decide (cpu ∈ [])) as [Hin|]; [|done]. by apply elem_of_nil in Hin.
  - cbn [list_prod List.map app fmap list_fmap list_to_map foldr fst snd uncurry].
    change (Z.of_nat 0) with 0.
    destruct (decide (c = cpu)) as [->|Hne].
    + rewrite lookup_insert_eq.
      destruct (decide (cpu ∈ cpu :: cpus)) as [|Hout]; [done|].
      exfalso. apply Hout. apply elem_of_cons. by left.
    + rewrite lookup_insert_ne by congruence.
      etrans; [exact IH|].
      destruct (decide (cpu ∈ cpus)) as [Hin|Hout];
        destruct (decide (cpu ∈ c :: cpus)) as [Hin'|Hout']; try done.
      * exfalso. apply Hout'. apply elem_of_cons. by right.
      * exfalso. apply elem_of_cons in Hin' as [->|Hin']; [done|]. by apply Hout.
Qed.

Lemma gadget_heap_cell (ncpus cpu : nat) :
  pa_cells (percpu_array_create gadget_heap ncpus) !! (cpu, 0)
  = if decide (cpu < ncpus)%nat then Some (zeroes MAX_EVENT_SIZE) else None.
Proof.
  unfold percpu_array_create. cbn [pa_cells].
  change (Z.to_nat (max_entries gadget_heap)) with 1%nat.
  change (seq 0 1) with [0%nat].
  change (value_size gadget_heap) with MAX_EVENT_SIZE.
  rewrite one_entry_cells_lookup.
  destruct (decide (cpu ∈ seq 0 ncpus)) as [Hin|Hout];
    destruct (decide (cpu < ncpus)%nat) as [Hlt|Hge]; try done.
  - exfalso. apply elem_of_seq in Hin. lia.
  - exfalso. apply Hout. apply elem_of_seq. lia.
Qed.
End Declaration.

(** X6: the key the header looks up fits the declaration of [gadget_heap].
    On a kernel that created the map as declared (one entry of
    [MAX_EVENT_SIZE] bytes per CPU), for every number of CPUs, slot-mode
    reserve on any of those CPUs returns that CPU's cell for every map and
    size, a region of 10240 bytes; on a CPU outside them it returns null. *)
Theorem gadget_heap_as_declared
    (k : kernel) (ncpus : nat) (map : map_ref) (size : Z) :
  bpf_core_type_exists struct_bpf_ringbuf k = false →
  k_percpu_arrays k !! map_name gadget_heap = Some (percpu_array_create gadget_heap ncpus) →
  let r := gadget_reserve_buf map size k in
  ((k_cpu k < ncpus)%nat →
     slot_table_initialized k
     ∧ r.1 = map_value (map_name gadget_heap) (k_cpu k) 0
     ∧ region r.1 r.2 = Some (zeroes MAX_EVENT_SIZE)
     ∧ Z.of_nat (length (zeroes MAX_EVENT_SIZE)) = 10240)
  ∧ ((ncpus ≤ k_cpu k)%nat → r.1 = NULL).
Proof.
  intros Hflag Hpa r. subst r.
  pose proof (gadget_heap_cell ncpus (k_cpu k)) as Hcell.
  split; intros Hcpu.
  - rewrite decide_True in Hcell by done.
    assert (slot_table_initialized k) as Hinit.
    { exists (percpu_array_create gadget_heap ncpus), (zeroes MAX_EVENT_SIZE).
      split_and!; try done. }
    rewrite reserve_slot_initialized by done. cbn [fst snd].
    split_and!; try done.
    rewrite region_log_call. unfold slot. cbn [region].
    rewrite Hpa. simpl. exact Hcell.
  - rewrite decide_False in Hcell by lia.
    rewrite reserve_slot_mode by done.
    unfold kernel_map_lookup_elem. cbn [log_call k_percpu_arrays k_cpu].
    rewrite Hpa, Hcell. by case_bool_decide.
Qed.

Lemma gadget_heap_as_declared_witness :
  let r := gadget_reserve_buf "events" 64 slot_kernel in
  r.1 = map_value (map_name gadget_heap) 1 0
  ∧ region r.1 r.2 = Some (zeroes MAX_EVENT_SIZE).
Proof.
  pose proof (gadget_heap_as_declared slot_kernel 2 "events" 64 eq_refl eq_refl)
    as [Hin _].
  destruct Hin as (_ & Hptr & Hregion & _); [by vm_compute|].
  split; [exact Hptr | exact Hregion].
Defined.

(** ** Two reservations in queue mode *)

Section QueueSteps.
Implicit Types (k : kernel) (m map : map_ref) (p buf : ptr) (rb : ringbuf).

Lemma lookup_set_ringbuf m rb k : k_ringbufs (set_ringbuf m rb k) !! m = Some rb.
Proof. apply lookup_insert_eq. Qed.

Lemma reserve_queue_ok map size k rb :
  bpf_core_type_exists struct_bpf_ringbuf k = true →
  k_ringbufs k !! map = Some rb →
  0 ≤ size ≤ rb_free rb →
  gadget_reserve_buf map size k
  = (ringbuf_mem map (rb_next rb),
     set_ringbuf map
       {| rb_free := rb_free rb - size;
          rb_next := S (rb_next rb);
          rb_pending := <[rb_next rb := fresh_record rb size]> (rb_pending rb);
          rb_queue := rb_queue rb;
          rb_junk := rb_junk rb |}
       (log_call (call_ringbuf_reserve map size 0) k)).
Proof.
  intros Hflag Hrb Hsize. rewrite reserve_queue_mode by done.
  unfold kernel_ringbuf_reserve. cbn [log_call k_ringbufs].
  by rewrite Hrb, bool_decide_eq_true_2.
Qed.

Lemma store_ring_ok m rec data cell rb k :
  k_ringbufs k !! m = Some rb →
  rb_pending rb !! rec = Some cell →
  (length data ≤ length cell)%nat →
  store_bytes (ringbuf_mem m rec) data k
  = set_ringbuf m
      {| rb_free := rb_free rb; rb_next := rb_next rb;
         rb_pending := <[rec := overwrite data cell]> (rb_pending rb);
         rb_queue := rb_queue rb; rb_junk := rb_junk rb |} k.
Proof.
  intros Hrb Hcell Hfit. unfold store_bytes.
  by rewrite Hrb, Hcell, bool_decide_eq_true_2.
Qed.

Lemma submit_queue_ok ctx map size m rec data rb k :
  bpf_core_type_exists struct_bpf_ringbuf k = true →
  k_ringbufs k !! m = Some rb →
  rb_pending rb !! rec = Some data →
  gadget_submit_buf ctx map (ringbuf_mem m rec) size k
  = (0, set_ringbuf m
          {| rb_free := rb_free rb; rb_next := rb_next rb;
             rb_pending := delete rec (rb_pending rb);
             rb_queue := rb_queue rb ++ [data]; rb_junk := rb_junk rb |}
          (log_call (call_ringbuf_submit (ringbuf_mem m rec) 0) k)).
Proof.
  intros Hflag Hrb Hdata. rewrite submit_queue_mode by done.
  unfold kernel_ringbuf_submit. cbn [log_call k_ringbufs].
  by rewrite Hrb, Hdata.
Qed.
End QueueSteps.

(** X8: in queue mode two reservations that are both outstanding are two
    records.  The second handle differs from the first, writing the second
    event leaves the first as written, and submitting the first and then
    the second gives the consumer the first event followed by the
    second. *)
Theorem queue_reservations_do_not_alias
    (k : kernel) (ctx : ctx_ptr) (map : map_ref) (first second : list byte) :
  bpf_core_type_exists struct_bpf_ringbuf k = true →
  let r1 := gadget_reserve_buf map (Z.of_nat (length first)) k in
  let k1 := store_bytes r1.1 first r1.2 in
  let r2 := gadget_reserve_buf map (Z.of_nat (length second)) k1 in
  let k2 := store_bytes r2.1 second r2.2 in
  r1.1 ≠ NULL →
  r2.1 ≠ NULL →
  let s1 := gadget_submit_buf ctx map r1.1 (Z.of_nat (length first)) k2 in
  let s2 := gadget_submit_buf ctx map r2.1 (Z.of_nat (length second)) s1.2 in
  r2.1 ≠ r1.1
  ∧ region r1.1 k2 = Some first
  ∧ region r2.1 k2 = Some second
  ∧ consumer_view map s1.2 = consumer_view map k ++ [first]
  ∧ consumer_view map s2.2 = consumer_view map k ++ [first; second].
Proof.
  intros Hflag r1 k1 r2 k2 Hok1 Hok2 s1 s2.
  subst s2 s1. revert Hok1 Hok2. subst k2 r2 k1 r1.
  intros Hok1.
  pose proof Hok1 as Hok1'. rewrite reserve_queue_mode in Hok1' by done.
  destruct (ringbuf_reserve_success _ _ _ _ Hok1') as (rb & Hrb & _ & Hsize1 & _).
  clear Hok1 Hok1'.
  rewrite (reserve_queue_ok map _ k rb) by done. cbn [fst snd].
  pose proof (length_fresh_record rb _ (proj1 Hsize1)) as Hlen1.
  set (rb0 := {| rb_free := rb_free rb - Z.of_nat (length first);
                 rb_next := S (rb_next rb);
                 rb_pending := <[rb_next rb := fresh_record rb (Z.of_nat (length first))]>
                                 (rb_pending rb);
                 rb_queue := rb_queue rb; rb_junk := rb_junk rb |}).
  rewrite (store_ring_ok map (rb_next rb) first
             (fresh_record rb (Z.of_nat (length first))) rb0)
    by (first [apply lookup_set_ringbuf | apply lookup_insert_eq | lia]).
  rewrite overwrite_all by lia.
  subst rb0. cbn [rb_free rb_next rb_pending rb_queue rb_junk].
  set (rb1 := {| rb_free := rb_free rb - Z.of_nat (length first);
                 rb_next := S (rb_next rb);
                 rb_pending := <[rb_next rb := first]> (<[rb_next rb := _]> (rb_pending rb));
                 rb_queue := rb_queue rb; rb_junk := rb_junk rb |}).
  set (k1 := set_ringbuf map rb1 _).
  assert (k_ringbufs k1 !! map = Some rb1) as Hrb1 by apply lookup_set_ringbuf.
  assert (bpf_core_type_exists struct_bpf_ringbuf k1 = true) as Hflag1 by exact Hflag.
  intros Hok2.
  pose proof Hok2 as Hok2'. rewrite reserve_queue_mode in Hok2' by done.
  destruct (ringbuf_reserve_success _ _ _ _ Hok2') as (rb' & Hrb' & _ & Hsize2 & _).
  assert (rb' = rb1) as -> by congruence.
  clear Hok2 Hok2' Hrb'.
  rewrite (reserve_queue_ok map _ k1 rb1) by done. cbn [fst snd].
  pose proof (length_fresh_record rb1 _ (proj1 Hsize2)) as Hlen2.
  set (rb0 := {| rb_free := rb_free rb1 - Z.of_nat (length second);
                 rb_next := S (rb_next rb1);
                 rb_pending := <[rb_next rb1 := fresh_record rb1 (Z.of_nat (length second))]>
                                 (rb_pending rb1);
                 rb_queue := rb_queue rb1; rb_junk := rb_junk rb1 |}).
  rewrite (store_ring_ok map (rb_next rb1) second
             (fresh_record rb1 (Z.of_nat (length second))) rb0)
    by (first [apply lookup_set_ringbuf | apply lookup_insert_eq | lia]).
  rewrite overwrite_all by lia.
  subst rb0. cbn [rb_free rb_next rb_pending rb_queue rb_junk].
  set (rb2 := {| rb_free := rb_free rb1 - Z.of_nat (length second);
                 rb_next := S (rb_next rb1);
                 rb_pending := <[rb_next rb1 := second]> (<[rb_next rb1 := _]> (rb_pending rb1));
                 rb_queue := rb_queue rb1; rb_junk := rb_junk rb1 |}).
  set (k2 := set_ringbuf map rb2 _).
  assert (k_ringbufs k2 !! map = Some rb2) as Hrb2 by apply lookup_set_ringbuf.
  assert (bpf_core_type_exists struct_bpf_ringbuf k2 = true) as Hflag2 by exact Hflag.
  assert (rb_next rb1 ≠ rb_next rb) as Hne by (simpl; lia).
  assert (rb_pending rb2 !! rb_next rb = Some first) as Hfirst.
  { subst rb2. cbn [rb_pending]. rewrite !lookup_insert_ne by done.
    subst rb1. cbn [rb_pending]. apply lookup_insert_eq. }
  assert (rb_pending rb2 !! rb_next rb1 = Some second) as Hsecond.
  { subst rb2. cbn [rb_pending]. apply lookup_insert_eq. }
  rewrite (submit_queue_ok ctx map _ map (rb_next rb) first rb2 k2) by done.
  cbn [fst snd].
  set (rb3 := {| rb_free := rb_free rb2; rb_next := rb_next rb2;
                 rb_pending := delete (rb_next rb) (rb_pending rb2);
                 rb_queue := rb_queue rb2 ++ [first]; rb_junk := rb_junk rb2 |}).
  set (k3 := set_ringbuf map rb3 _).
  assert (k_ringbufs k3 !! map = Some rb3) as Hrb3 by apply lookup_set_ringbuf.
  assert (bpf_core_type_exists struct_bpf_ringbuf k3 = true) as Hflag3 by exact Hflag.
  assert (rb_pending rb3 !! rb_next rb1 = Some second) as Hsecond3.
  { subst rb3. cbn [rb_pending]. by rewrite lookup_delete_ne. }
  rewrite (submit_queue_ok ctx map _ map (rb_next rb1) second rb3 k3) by done.
  cbn [fst snd].
  split_and!.
  - intros [= Heq]. done.
  - cbn [region]. rewrite Hrb2. simpl. exact Hfirst.
  - cbn [region]. rewrite Hrb2. simpl. exact Hsecond.
  - unfold consumer_view. rewrite Hrb3, Hrb. reflexivity.
  - unfold consumer_view. rewrite lookup_set_ringbuf, Hrb. simpl.
    by rewrite <- app_assoc.
Qed.

Lemma queue_reservations_do_not_alias_witness :
  let k := queue_kernel 4096 x00 in
  let r1 := gadget_reserve_buf "events" 2 k in
  let k1 := store_bytes r1.1 [x01; x02] r1.2 in
  let r2 := gadget_reserve_buf "events" 3 k1 in
  let k2 := store_bytes r2.1 [x0a; x0b; x0c] r2.2 in
  let s1 := gadget_submit_buf 7%nat "events" r1.1 2 k2 in
  let s2 := gadget_submit_buf 7%nat "events" r2.1 3 s1.2 in
  region r1.1 k2 = Some [x01; x02]
  ∧ consumer_view "events" s2.2 = [[x01; x02]; [x0a; x0b; x0c]].
Proof.
  pose proof (queue_reservations_do_not_alias (queue_kernel 4096 x00) 7%nat "events"
                [x01; x02] [x0a; x0b; x0c] eq_refl) as H.
  destruct H as (_ & Hfirst & _ & _ & Hview); [by vm_compute|by vm_compute|].
  split; [exact Hfirst | exact Hview].
Defined.
